(** * A shallow embedding of twscrape's account record, its persistence,
    the Gmail confirmation-code retrieval and the DrissionPage login flow
    (src/twscrape/account.py, gmail.py, login_alternative.py). *)

From Stdlib Require Import String Ascii List ZArith Bool Lia.
From stdpp Require Import base gmap strings list.

Open Scope string_scope.
Set Warnings "-register-all".

(** ** Python string helpers, over ASCII strings *)
(** They are exact on the strings they are applied to: a header that
    [Message.get] hands back as a [str] is pure ASCII (see
    [header_fetch_parse] below), and so are the literals. *)
Module Py.

(** [str.lower] on ASCII characters. *)
Definition lower_char (c : ascii) : ascii :=
  let n := nat_of_ascii c in
  if (65 <=? n)%nat && (n <=? 90)%nat then ascii_of_nat (n + 32)%nat else c.

Fixpoint lower (s : string) : string :=
  match s with
  | EmptyString => EmptyString
  | String c s' => String (lower_char c) (lower s')
  end.

(** [needle in hay] for strings. *)
Fixpoint contains (needle hay : string) : bool :=
  if String.prefix needle hay then true
  else match hay with
       | EmptyString => false
       | String _ hay' => contains needle hay'
       end.

(** [s.split(sep)] for a one-character separator: empty pieces are kept
    and the result is never empty. *)
Fixpoint split_aux (sep : ascii) (s cur : string) : list string :=
  match s with
  | EmptyString => [cur]
  | String c s' =>
      if Ascii.eqb c sep then cur :: split_aux sep s' EmptyString
      else split_aux sep s' (String.append cur (String c EmptyString))
  end.

Definition split (sep : ascii) (s : string) : list string := split_aux sep s EmptyString.

(** [str.isspace] on one ASCII character. *)
Definition is_space (c : ascii) : bool :=
  let n := nat_of_ascii c in
  ((n =? 32) || ((9 <=? n) && (n <=? 13)) || ((28 <=? n) && (n <=? 31)))%nat.

Fixpoint lstrip (s : string) : string :=
  match s with
  | String c s' => if is_space c then lstrip s' else s
  | EmptyString => EmptyString
  end.

Fixpoint rstrip (s : string) : string :=
  match s with
  | EmptyString => EmptyString
  | String c s' =>
      let r := rstrip s' in
      if is_space c && String.eqb r EmptyString then EmptyString else String c r
  end.

Definition strip (s : string) : string := rstrip (lstrip s).

(** [xs[0]] and [xs[-1]] on the (never empty) result of [split]. *)
Definition first (xs : list string) : string := List.hd EmptyString xs.
Definition last (xs : list string) : string := List.last xs EmptyString.

(** Truthiness of an optional string ([None] and [""] are falsy). *)
Definition truthy (s : option string) : bool :=
  match s with Some v => negb (String.eqb v EmptyString) | None => false end.

End Py.

(** ** Data model (account.py, gmail.py, login.py) *)

(** Timestamps are carried as instants; their ISO text form is handled by
    [utc.from_iso] and [datetime.isoformat] (see [Persistence]). *)
Abbreviation datetime := Z (only parsing).

Record GmailCredentials := {
  token : string;
  refresh_token : string;
  client_id : string;
  client_secret : string;
  scopes : list string;
  token_uri : string;
  universe_domain : string;
  account : string;
  expiry : string
}.

Record Account := {
  username : string;
  password : string;
  email : string;
  email_password : string;
  user_agent : string;
  active : bool;
  locks : gmap string datetime;
  stats : gmap string Z;
  headers : gmap string string;
  cookies : gmap string string;
  gmail_credentials : option GmailCredentials;
  mfa_code : option string;
  proxy : option string;
  error_msg : option string;
  last_used : option datetime;
  _tx : option string
}.

(** [acc.active = b] *)
Definition set_active (b : bool) (a : Account) : Account :=
  {| username := username a; password := password a; email := email a;
     email_password := email_password a; user_agent := user_agent a;
     active := b; locks := locks a; stats := stats a; headers := headers a;
     cookies := cookies a; gmail_credentials := gmail_credentials a;
     mfa_code := mfa_code a; proxy := proxy a; error_msg := error_msg a;
     last_used := last_used a; _tx := _tx a |}.

(** [acc.headers = h; acc.cookies = c] *)
Definition set_session (h c : gmap string string) (a : Account) : Account :=
  {| username := username a; password := password a; email := email a;
     email_password := email_password a; user_agent := user_agent a;
     active := active a; locks := locks a; stats := stats a; headers := h;
     cookies := c; gmail_credentials := gmail_credentials a;
     mfa_code := mfa_code a; proxy := proxy a; error_msg := error_msg a;
     last_used := last_used a; _tx := _tx a |}.

(** [LoginConfig] (login.py), with the fields login_alternative reads. *)
Record LoginConfig := {
  email_first : bool;
  manual : bool;
  gmail : bool
}.

(** An [IMAP4_SSL] session, logged in for a mailbox. *)
Inductive IMAP4_SSL := imap_session (user : string).

(** ** Exceptions, events and the effect monad *)

Inductive exn :=
| ElementNotFoundError   (* DrissionPage: element lookup timed out *)
| PageLoadError
| ElementLoadError
| HttpError              (* googleapiclient *)
| NoEmailFoundError
| RetryError             (* tenacity, attempts exhausted *)
| EmailLoginError
| OtherError (msg : string).

Inductive Result (A : Type) :=
| Ok (a : A)
| Raise (e : exn).
Arguments Ok {A} a.
Arguments Raise {A} e.

(** Observable calls on the collaborators, newest first. *)
Inductive event :=
| EvOpenPage                        (* WebPage(...) created *)
| EvLookup (sel : string) (found : bool)
| EvQuit
| EvFetchGmail                      (* gmail_get_email_code *)
| EvFetchImap                       (* imap_get_email_code *)
| EvImapLogin
| EvSleep (secs : nat)              (* tenacity wait_fixed *)
| EvSleepJitter (attempt : nat)     (* tenacity wait_full_jitter *)
| EvListUnread
| EvReadMessage (msg_id : string).

(** State passing with Python exceptions. *)
Definition St (S A : Type) : Type := S -> Result A * S.

Global Instance St_ret {S} : MRet (St S) := fun A a w => (Ok a, w).
Global Instance St_bind {S} : MBind (St S) := fun A B k m w =>
  match m w with
  | (Ok a, w') => k a w'
  | (Raise e, w') => (Raise e, w')
  end.

Definition raise {S A} (e : exn) : St S A := fun w => (Raise e, w).

(** [try: m except <exceptions matching p> as e: h(e)] *)
Definition try_except {S A} (m : St S A) (p : exn -> bool) (h : exn -> St S A) : St S A :=
  fun w =>
    match m w with
    | (Ok a, w') => (Ok a, w')
    | (Raise e, w') => if p e then h e w' else (Raise e, w')
    end.

(** ** tenacity: [@retry(stop=stop_after_attempt(stop), wait=..., retry=retry_if_exception_type(...))]

    Attempt [attempt_number] runs [f]; a result is returned, an exception
    the predicate does not select is re-raised, a selected one is retried
    after [wait attempt_number] unless [attempt_number >= stop], in which
    case [error_callback] (the [retry_error_callback], or [raise RetryError])
    decides the outcome. *)
Fixpoint retry_loop {W A} (fuel attempt_number stop : nat) (wait : nat -> St W unit)
    (retryable : exn -> bool) (error_callback : exn -> St W A) (f : St W A) : St W A :=
  fun w =>
    match f w with
    | (Ok a, w') => (Ok a, w')
    | (Raise e, w') =>
        if retryable e then
          if (stop <=? attempt_number)%nat then error_callback e w'
          else match fuel with
               | O => error_callback e w'
               | S fuel' =>
                   (wait attempt_number ;;
                    retry_loop fuel' (S attempt_number) stop wait retryable error_callback f) w'
               end
        else (Raise e, w')
    end.

Definition tenacity_retry {W A} (stop : nat) (wait : nat -> St W unit)
    (retryable : exn -> bool) (error_callback : exn -> St W A) (f : St W A) : St W A :=
  retry_loop stop 1 stop wait retryable error_callback f.

(** ** gmail.py: reading the confirmation code out of a message *)

(** The headers [_parse_code] reads from the [email.message.Message] that
    [email.message_from_bytes] builds: the raw value of each header, one
    [ascii] per byte. *)
Record EmailMessage := {
  msg_Date : option string;
  msg_Subject : option string;
  msg_From : option string
}.

Definition is_ascii_bytes (s : string) : bool :=
  forallb (fun c => (nat_of_ascii c <? 128)%nat) (list_ascii_of_string s).

(** What [Message.get] returns under the default [compat32] policy: the raw
    value as a [str] when its bytes are all ASCII; otherwise (the parser
    decoded the bytes with [surrogateescape]) an [email.header.Header]
    object. *)
Inductive HeaderValue :=
| HStr (s : string)
| HHeader (raw : string).

Definition header_fetch_parse (raw : string) : HeaderValue :=
  if is_ascii_bytes raw then HStr raw else HHeader raw.

(** [email_message.get(name, default)] *)
Definition msg_get (h : option string) (default : string) : HeaderValue :=
  match h with Some raw => header_fetch_parse raw | None => HStr default end.

Definition AttributeError : exn := OtherError "AttributeError".

(** Calling a [str] method ([split], [lower]) on the value: a [Header] has
    none. *)
Definition str_of (v : HeaderValue) : Result string :=
  match v with HStr s => Ok s | HHeader _ => Raise AttributeError end.

Section ParseCode.
(** [_parse_time] (strptime against two formats, [None] on failure): its
    result is only logged, so it is a parameter of the embedding. *)
Context {datetime : Type} (_parse_time : string -> option datetime).

Definition _parse_code (email_message : EmailMessage) : Result (option string) :=
  match str_of (msg_get (msg_Date email_message) "") with
  | Raise e => Raise e
  | Ok date =>
  let msg_time := Py.strip (Py.first (Py.split "(" date)) in
  let _ := _parse_time msg_time in
  match str_of (msg_get (msg_Subject email_message) "") with
  | Raise e => Raise e
  | Ok subj =>
  let msg_subj := Py.lower subj in
  match str_of (msg_get (msg_From email_message) "") with
  | Raise e => Raise e
  | Ok frm =>
  let msg_from := Py.lower frm in
  if Py.contains "info@x.com" msg_from && Py.contains "confirmation code is" msg_subj
  then Ok (Some (Py.strip (Py.last (Py.split " " msg_subj))))
  else Ok None
  end end end.

End ParseCode.

Definition never_parses (_ : string) : option unit := None.




(** A message [_parse_code] reads without raising and without finding a
    code ([if code := _parse_code(...)] is false). *)
Definition no_code {dt} (pt : string -> option dt) (m : EmailMessage) : bool :=
  match _parse_code pt m with Ok c => negb (Py.truthy c) | Raise _ => false end.

Example parse_code_ex :
  _parse_code never_parses
    {| msg_Date := Some "Thu, 15 Aug 2024 23:40:30 GMT";
       msg_Subject := Some "Your Twitter confirmation code is 739201";
       msg_From := Some "info@x.com" |} = Ok (Some "739201").
Proof. reflexivity. Qed.

(** ** gmail.py: polling the mailbox *)

(** [service.users().messages().list(...).execute()] *)
Record ListResponse := {
  resultSizeEstimate : nat;
  messages : list string     (* the message ids *)
}.

(** The Gmail API as seen by [get_emails]: answers in call order. *)
Record Mailbox := {
  mb_list : list (Result ListResponse);        (* messages().list *)
  mb_get : list (Result EmailMessage);         (* messages().get, decoded *)
  mb_trace : list event
}.

Definition mb_emit (ev : event) : St Mailbox unit := fun m =>
  (Ok tt, {| mb_list := mb_list m; mb_get := mb_get m; mb_trace := ev :: mb_trace m |}).

Definition list_unread : St Mailbox ListResponse := fun m =>
  let '(r, rest) :=
    match mb_list m with
    | x :: rest => (x, rest)
    | [] => (Ok {| resultSizeEstimate := 0; messages := [] |}, [])
    end in
  (r, {| mb_list := rest; mb_get := mb_get m; mb_trace := EvListUnread :: mb_trace m |}).

Definition get_message (msg_id : string) : St Mailbox EmailMessage := fun m =>
  let '(r, rest) :=
    match mb_get m with
    | x :: rest => (x, rest)
    | [] => (Raise HttpError, [])
    end in
  (r, {| mb_list := mb_list m; mb_get := rest; mb_trace := EvReadMessage msg_id :: mb_trace m |}).

Definition is_HttpError (e : exn) : bool :=
  match e with HttpError => true | _ => false end.

Definition is_Http_or_NoEmail (e : exn) : bool :=
  match e with HttpError | NoEmailFoundError => true | _ => false end.

(** [wait_full_jitter(max=20)]: a random delay, recorded by attempt. *)
Definition jitter_wait (attempt : nat) : St Mailbox unit := mb_emit (EvSleepJitter attempt).

(** Without [retry_error_callback] or [reraise], tenacity raises
    [RetryError] once the attempts are spent. *)
Definition raise_RetryError {A} (_ : exn) : St Mailbox A := raise RetryError.

(** [_read_message], with its decorator. *)
Definition _read_message (msg_id : string) : St Mailbox EmailMessage :=
  tenacity_retry 5 jitter_wait is_HttpError raise_RetryError (get_message msg_id).

(** A value or an exception of a pure computation. *)
Definition of_result {S A} (r : Result A) : St S A := fun s => (r, s).

Section GetEmails.
Context {dt : Type} (_parse_time : string -> option dt).

(** The body of the [with retry:] block. *)
Definition list_attempt : St Mailbox ListResponse :=
  search_id ← list_unread ;
  if (resultSizeEstimate search_id =? 0)%nat then raise NoEmailFoundError
  else mret search_id.

Fixpoint scan_messages (message_ids : list string) : St Mailbox (option string) :=
  match message_ids with
  | [] => mret None
  | msg_id :: rest =>
      email_message ← _read_message msg_id ;
      code ← of_result (_parse_code _parse_time email_message) ;
      if Py.truthy code then mret code else scan_messages rest
  end.

Definition get_emails (num_retries : nat) : St Mailbox (option string) :=
  search_id ← tenacity_retry num_retries jitter_wait is_Http_or_NoEmail raise_RetryError
                list_attempt ;
  if (0 <? resultSizeEstimate search_id)%nat then scan_messages (messages search_id)
  else mret None.

End GetEmails.


(** ** gmail.py: authorization and the service *)
Module Gmail.

(** The attributes of a [google.oauth2.credentials.Credentials] object
    [oauth2_login] reads. The class defines neither [__bool__] nor
    [__len__], so such an object is always truthy. *)
Record Credentials := {
  cr_valid : bool;
  cr_expired : bool;
  cr_refresh_token : option string
}.

Definition creds_truthy (_ : Credentials) : bool := true.

(** Calls on the Google libraries. *)
Inductive gevent := GvFromInfo | GvRefresh | GvBuild.

(** What the Google libraries answer. *)
Record Google := {
  g_info : Result Credentials;     (* Credentials.from_authorized_user_info(...) *)
  g_refresh : Result Credentials;  (* the credentials after creds.refresh(Request()) *)
  g_build : Result unit;           (* build("gmail", "v1", ...): the service or an exception *)
  g_mailbox : Mailbox;             (* the API behind the service *)
  g_trace : list gevent
}.

Definition g_with (mb : Mailbox) (tr : list gevent) (g : Google) : Google :=
  {| g_info := g_info g; g_refresh := g_refresh g; g_build := g_build g;
     g_mailbox := mb; g_trace := tr |}.

Definition from_authorized_user_info (_ : GmailCredentials) : St Google Credentials :=
  fun g => (g_info g, g_with (g_mailbox g) (GvFromInfo :: g_trace g) g).

Definition refresh (_ : Credentials) : St Google Credentials :=
  fun g => (g_refresh g, g_with (g_mailbox g) (GvRefresh :: g_trace g) g).

Definition build : St Google unit :=
  fun g => (g_build g, g_with (g_mailbox g) (GvBuild :: g_trace g) g).

(** A computation on the mailbox, run through the service. *)
Definition on_mailbox {A} (m : St Mailbox A) : St Google A :=
  fun g => let '(r, mb) := m (g_mailbox g) in (r, g_with mb (g_trace g) g).

(** [oauth2_login]; [creds.refresh] updates the object that is returned. *)
Definition oauth2_login (authorized_info : GmailCredentials) : St Google Credentials :=
  creds ← from_authorized_user_info authorized_info ;
  if negb (creds_truthy creds) || negb (cr_valid creds) then
    if creds_truthy creds && cr_expired creds && Py.truthy (cr_refresh_token creds)
    then refresh creds
    else raise (OtherError "Credentials can't be authorized automatically")
  else mret creds.

(** [get_service]: [except HttpError] logs, and the [return] in [finally]
    discards any exception, so a failed build of any kind gives [None]. *)
Definition get_service (_ : Credentials) : St Google (option unit) :=
  fun g => match build g with
           | (Ok service, g') => (Ok (Some service), g')
           | (Raise _, g') => (Ok None, g')
           end.

Section GmailGetEmailCode.
Context {dt : Type} (_parse_time : string -> option dt).

(** [gmail_get_email_code]; [get_emails(service)] runs with its default
    [num_retries=5]. *)
Definition gmail_get_email_code (authorized_info : GmailCredentials) : St Google (option string) :=
  credentials ← oauth2_login authorized_info ;
  if creds_truthy credentials then
    service ← get_service credentials ;
    match service with
    | Some _ => on_mailbox (get_emails _parse_time 5)
    | None => raise EmailLoginError
    end
  else raise EmailLoginError.

End GmailGetEmailCode.

End Gmail.

(** ** The browser and the mail backends *)

(** What the collaborators answer, consumed in call order. *)
Record World := {
  w_lookups : list bool;                       (* page.ele found the element? *)
  w_google : Gmail.Google;                     (* the Google libraries gmail.py calls *)
  w_imap : list (Result (option string));      (* imap_get_email_code *)
  w_imap_login : option IMAP4_SSL;             (* imap_login; None: EmailLoginError *)
  w_totp : option string;                      (* pyotp.TOTP(seed).now(); None: bad seed *)
  w_cookies : gmap string string;              (* page.cookies(...) *)
  w_headers : gmap string string;              (* page._headers *)
  w_trace : list event
}.

Definition w_with (l : list bool) (g : Gmail.Google) (i : list (Result (option string)))
    (tr : list event) (w : World) : World :=
  {| w_lookups := l; w_google := g; w_imap := i; w_imap_login := w_imap_login w;
     w_totp := w_totp w; w_cookies := w_cookies w; w_headers := w_headers w;
     w_trace := tr |}.

Abbreviation M := (St World).

Definition is_ENF (e : exn) : bool :=
  match e with ElementNotFoundError => true | _ => false end.

(** [except Exception]: every exception of the model. *)
Definition is_Exception (_ : exn) : bool := true.

Definition emit (ev : event) : M unit := fun w =>
  (Ok tt, w_with (w_lookups w) (w_google w) (w_imap w) (ev :: w_trace w) w).

(** [page.ele(sel, timeout)] followed by a use of the element: a lookup
    that times out gives a [NoneElement], and using it raises
    [ElementNotFoundError]. *)
Definition ele (sel : string) : M unit := fun w =>
  match w_lookups w with
  | true :: rest =>
      (Ok tt, w_with rest (w_google w) (w_imap w) (EvLookup sel true :: w_trace w) w)
  | false :: rest =>
      (Raise ElementNotFoundError,
       w_with rest (w_google w) (w_imap w) (EvLookup sel false :: w_trace w) w)
  | [] =>
      (Raise ElementNotFoundError,
       w_with [] (w_google w) (w_imap w) (EvLookup sel false :: w_trace w) w)
  end.

(** [page.ele(sel, timeout)] whose result is not used: DrissionPage returns
    a [NoneElement] when the lookup times out (its default
    [Settings.raise_when_ele_not_found] is [False]), so nothing is raised. *)
Definition lookup (sel : string) : M unit := fun w =>
  match w_lookups w with
  | b :: rest => (Ok tt, w_with rest (w_google w) (w_imap w) (EvLookup sel b :: w_trace w) w)
  | [] => (Ok tt, w_with [] (w_google w) (w_imap w) (EvLookup sel false :: w_trace w) w)
  end.

Definition quit : M unit := emit EvQuit.

(** A collaborator outcome from a queue; an exhausted queue answers [None]. *)
Definition pop_code (r : list (Result (option string))) : Result (option string) * list (Result (option string)) :=
  match r with
  | x :: rest => (x, rest)
  | [] => (Ok None, [])
  end.

(** [gmail_get_email_code] of gmail.py, run on the world's Google
    libraries; [_parse_time] only feeds a log line. *)
Definition gmail_get_email_code (c : GmailCredentials) : M (option string) := fun w =>
  let '(x, g') := Gmail.gmail_get_email_code never_parses c (w_google w) in
  (x, w_with (w_lookups w) g' (w_imap w) (EvFetchGmail :: w_trace w) w).

(** Modelled from the spec: [imap_get_email_code] and [imap_login]
    (src/twscrape/imap.py, not in this tree) answer from the world. *)
Definition imap_get_email_code (_ : IMAP4_SSL) (_ : string) : M (option string) := fun w =>
  let '(x, rest) := pop_code (w_imap w) in
  (x, w_with (w_lookups w) (w_google w) rest (EvFetchImap :: w_trace w) w).

Definition imap_login (_ _ : string) : M IMAP4_SSL := fun w =>
  (match w_imap_login w with Some i => Ok i | None => Raise EmailLoginError end,
   w_with (w_lookups w) (w_google w) (w_imap w) (EvImapLogin :: w_trace w) w).

Definition totp_now (_ : string) : M string := fun w =>
  (match w_totp w with Some c => Ok c | None => Raise (OtherError "binascii.Error") end, w).
Definition page_cookies : M (gmap string string) := fun w => (Ok (w_cookies w), w).
Definition page_headers : M (gmap string string) := fun w => (Ok (w_headers w), w).

(** ** login_alternative.py *)

Definition LOGIN_SPAN_TEXT := "Phone, email, or username".
Definition NEXT_BUTTON_TEXT := "Next".
Definition NAVIGATION_BAR_SELECTOR := "tag:nav@role=navigation".
Definition PASSWORD_SELECTOR := "tag:input@type=password".
Definition CODEINPUT_SELECTOR := "tag:input@data-testid=ocfEnterTextTextInput@type=text".
Definition EMAILINPUT_SELECTOR := "tag:input@data-testid=ocfEnterTextTextInput@type=email".
Definition LOGIN_BUTTON_SELECTOR := "tag:button@data-testid=LoginForm_Login_Button".
Definition MFA_CODE_SELECTOR := "tag:input@data-testid=ocfEnterTextTextInput@inputmode=numeric@type=text".

Definition get_email_code (gmail_credentials : option GmailCredentials)
    (imap : option IMAP4_SSL) (email : option string) : M (option string) :=
  match gmail_credentials with
  | Some c => gmail_get_email_code c
  | None =>
      match imap, email with
      | Some i, Some e => if Py.truthy (Some e) then imap_get_email_code i e else mret None
      | _, _ => mret None
      end
  end.

(** The value of [login_with_drissionpage]: [(cookies, headers)] or
    [(None, None)]. *)
Abbreviation Outcome := (option (gmap string string) * option (gmap string string))%type.

Definition fail_outcome : Outcome := (None, None).

(** One confirmation-code block (lines 124-153 and 187-216): [Some o] is an
    early [return o], [None] falls through. *)
Definition code_challenge (gmail_credentials : option GmailCredentials)
    (imap : option IMAP4_SSL) (email : option string) : M (option Outcome) :=
  try_except
    (ele CODEINPUT_SELECTOR ;;
     r ← try_except
           (code ← get_email_code gmail_credentials imap email ;
            if Py.truthy code then mret None
            else quit ;; mret (Some fail_outcome))
           is_Exception (fun _ => quit ;; mret (Some fail_outcome)) ;
     match r with
     | Some o => mret (Some o)
     | None => ele NEXT_BUTTON_TEXT ;; mret None
     end)
    is_ENF (fun _ => mret None).

(** "check if they are asking for email" (lines 156-162 and 219-225). *)
Definition email_challenge : M unit :=
  try_except (ele EMAILINPUT_SELECTOR ;; ele NEXT_BUTTON_TEXT)
    is_ENF (fun _ => mret tt).

(** The MFA block (lines 228-246). *)
Definition mfa_challenge (mfa_code : option string) : M (option Outcome) :=
  try_except
    (ele MFA_CODE_SELECTOR ;;
     match mfa_code with
     | Some seed =>
         if Py.truthy (Some seed) then
           totp_now seed ;; ele NEXT_BUTTON_TEXT ;; mret None
         else quit ;; mret (Some fail_outcome)
     | None => quit ;; mret (Some fail_outcome)
     end)
    is_ENF (fun _ => mret None).

(** "wait for What is happening?!" (lines 250-259). *)
Definition wait_navigation : M (option Outcome) :=
  try_except (lookup NAVIGATION_BAR_SELECTOR ;; mret None)
    is_ENF (fun _ => quit ;; mret (Some fail_outcome)).

(** The body of [login_with_drissionpage]: one attempt. *)
Definition drission_attempt (email : option string) (mfa_code : option string)
    (imap : option IMAP4_SSL) (gmail_credentials : option GmailCredentials)
    : M Outcome :=
  emit EvOpenPage ;;
  try_except (ele LOGIN_SPAN_TEXT) is_ENF (fun _ => quit ;; raise PageLoadError) ;;
  ele NEXT_BUTTON_TEXT ;;
  r1 ← code_challenge gmail_credentials imap email ;
  match r1 with Some o => mret o | None =>
  email_challenge ;;
  try_except (ele PASSWORD_SELECTOR) is_ENF (fun _ => raise ElementLoadError) ;;
  try_except (ele LOGIN_BUTTON_SELECTOR) is_ENF (fun _ => raise ElementLoadError) ;;
  r2 ← code_challenge gmail_credentials imap email ;
  match r2 with Some o => mret o | None =>
  email_challenge ;;
  r3 ← mfa_challenge mfa_code ;
  match r3 with Some o => mret o | None =>
  r4 ← wait_navigation ;
  match r4 with Some o => mret o | None =>
  c ← page_cookies ;
  h ← page_headers ;
  quit ;;
  mret (Some c, Some h)
  end end end end.

Definition is_load_error (e : exn) : bool :=
  match e with PageLoadError | ElementLoadError => true | _ => false end.

(** [return_none_anyway] *)
Definition return_none_anyway (_ : exn) : M Outcome := mret fail_outcome.

Definition LOGIN_STOP_ATTEMPTS : nat := 3.
Definition LOGIN_WAIT_SECS : nat := 5.

(** [login_with_drissionpage] with its [@tenacity.retry] decorator;
    username, password, user agent and data path only feed the page and
    are left out. *)
Definition login_with_drissionpage (email mfa_code : option string)
    (imap : option IMAP4_SSL) (gmail_credentials : option GmailCredentials)
    : M Outcome :=
  tenacity_retry LOGIN_STOP_ATTEMPTS (fun _ => emit (EvSleep LOGIN_WAIT_SECS))
    is_load_error return_none_anyway
    (drission_attempt email mfa_code imap gmail_credentials).

(** Truthiness of an optional dict. *)
Definition dict_truthy (d : option (gmap string string)) : bool :=
  match d with Some m => negb (bool_decide (m = ∅)) | None => false end.

(** [login_alternative]; [default_cfg] is [LoginConfig()]. *)
Definition login_alternative (acc : Account) (cfg : option LoginConfig)
    (default_cfg : LoginConfig) : M Account :=
  if active acc then mret acc else
  let cfg := match cfg with Some c => c | None => default_cfg end in
  imap ← (if email_first cfg && negb (manual cfg)
          then i ← imap_login (email acc) (email_password acc) ; mret (Some i)
          else mret None) ;
  let gmail_creds :=
    if gmail cfg && bool_decide (is_Some (gmail_credentials acc))
    then gmail_credentials acc else None in
  (* the call passes no [imap=] argument *)
  '(cookies, headers) ← login_with_drissionpage (Some (email acc)) (mfa_code acc)
                          None gmail_creds ;
  match cookies, headers with
  | Some c, Some h =>
      if dict_truthy (Some c) && dict_truthy (Some h)
      then mret (set_session h c (set_active true acc))
      else mret (set_active false acc)
  | _, _ => mret (set_active false acc)
  end.

(** ** account.py: persistence *)

(** A JSON document. The text [json.dumps] writes is represented by the
    document it encodes ([json.loads(json.dumps(d)) == d] for every
    document built here). *)
Inductive json :=
| JNull
| JBool (b : bool)
| JInt (z : Z)
| JFloat (repr : string)   (* a number with a fraction or an exponent *)
| JStr (s : string)
| JArr (l : list json)
| JObj (l : list (string * json)).

(** The row [to_rs] produces: JSON columns as documents. *)
Record Row := {
  r_username : string; r_password : string; r_email : string;
  r_email_password : string; r_user_agent : string;
  r_active : bool;
  r_locks : json; r_stats : json; r_headers : json; r_cookies : json;
  r_gmail_credentials : option json;
  r_mfa_code : option string; r_proxy : option string; r_error_msg : option string;
  r_last_used : option string; r__tx : option string
}.

(** A Python dict built from its items: the last binding of a key wins. *)
Definition dict_of_items {A} (l : list (string * A)) : gmap string A :=
  foldl (fun m kv => <[kv.1:=kv.2]> m) ∅ l.

Fixpoint decode_items {A} (f : json -> option A) (l : list (string * json))
    : option (list (string * A)) :=
  match l with
  | [] => Some []
  | (k, v) :: rest =>
      match f v, decode_items f rest with
      | Some a, Some r => Some ((k, a) :: r)
      | _, _ => None
      end
  end.

Definition json_obj_map {A} (f : A -> json) (m : gmap string A) : json :=
  JObj ((fun kv => (kv.1, f kv.2)) <$> map_to_list m).

Definition as_str (j : json) : option string :=
  match j with JStr s => Some s | _ => None end.

(** [{k: v for k, v in d.items() if isinstance(v, int)}]; a bool is an int. *)
Definition stat_value (j : json) : option Z :=
  match j with JInt z => Some z | JBool b => Some (Z.b2z b) | _ => None end.

(** Modelled from the spec: [JSONTrait.json] (src/twscrape/models.py, not
    in this tree) writes the credentials as a JSON object of their dataclass
    fields ("gmail_credentials" is a JSON-encoded column). *)
Definition GmailCredentials_json (c : GmailCredentials) : json :=
  JObj [("token", JStr (token c)); ("refresh_token", JStr (refresh_token c));
        ("client_id", JStr (client_id c)); ("client_secret", JStr (client_secret c));
        ("scopes", JArr (JStr <$> scopes c)); ("token_uri", JStr (token_uri c));
        ("universe_domain", JStr (universe_domain c)); ("account", JStr (account c));
        ("expiry", JStr (expiry c))].

Definition SCOPES : list string := ["https://www.googleapis.com/auth/gmail.readonly"].

Definition GmailCredentials_fields : list string :=
  ["token"; "refresh_token"; "client_id"; "client_secret"; "scopes"; "token_uri";
   "universe_domain"; "account"; "expiry"].

(** [d[k]] on a JSON object (last binding wins). *)
Definition obj_get (l : list (string * json)) (k : string) : option json :=
  (dict_of_items l) !! k.

Fixpoint str_list (l : list json) : option (list string) :=
  match l with
  | [] => Some []
  | JStr s :: rest => match str_list rest with Some r => Some (s :: r) | None => None end
  | _ :: _ => None
  end.

(** [GmailCredentials( **json.loads(...))]: keyword-only fields, unknown
    keywords rejected ([TypeError]), defaults for the optional ones. The
    dataclass does not check types; the record holds [str] fields (a list
    of them for [scopes]), so a stored field of another JSON type is
    outside the model and gives [None]. *)
Definition GmailCredentials_of_json (j : json) : option GmailCredentials :=
  match j with
  | JObj l =>
      if forallb (fun kv => bool_decide (kv.1 ∈ GmailCredentials_fields)) l then
        let str_or k d := match obj_get l k with
                          | Some v => as_str v | None => Some d end in
        match obj_get l "token" ≫= as_str, obj_get l "refresh_token" ≫= as_str,
              obj_get l "client_id" ≫= as_str, obj_get l "client_secret" ≫= as_str,
              (match obj_get l "scopes" with
               | Some (JArr xs) => str_list xs | Some _ => None | None => Some SCOPES end),
              str_or "token_uri" "https://oauth2.googleapis.com/token",
              str_or "universe_domain" "googleapis.com",
              str_or "account" "", str_or "expiry" "" with
        | Some t, Some rt, Some ci, Some cs, Some sc, Some tu, Some ud, Some ac, Some ex =>
            Some {| token := t; refresh_token := rt; client_id := ci; client_secret := cs;
                    scopes := sc; token_uri := tu; universe_domain := ud;
                    account := ac; expiry := ex |}
        | _, _, _, _, _, _, _, _, _ => None
        end
      else None
  | _ => None
  end.

Section Persistence.
(** [datetime.isoformat] and [utc.from_iso] (src/twscrape/utils.py). *)
Context (isoformat : datetime -> string) (from_iso : string -> option datetime).

Definition to_rs (a : Account) : Row :=
  {| r_username := username a; r_password := password a; r_email := email a;
     r_email_password := email_password a; r_user_agent := user_agent a;
     r_active := active a;
     r_locks := json_obj_map (fun t => JStr (isoformat t)) (locks a);
     r_stats := json_obj_map JInt (stats a);
     r_headers := json_obj_map JStr (headers a);
     r_cookies := json_obj_map JStr (cookies a);
     r_gmail_credentials := GmailCredentials_json <$> gmail_credentials a;
     r_mfa_code := mfa_code a; r_proxy := proxy a; r_error_msg := error_msg a;
     r_last_used := isoformat <$> last_used a; r__tx := _tx a |}.

(** The dict [json.loads] builds (the last binding of a key wins), with [f]
    applied to each of its values. *)
Definition decode_dict {A} (f : json -> option A) (j : json) : option (gmap string A) :=
  match j with
  | JObj l => dict_of_items <$> decode_items f (map_to_list (dict_of_items l))
  | _ => None
  end.

Definition from_rs (rs : Row) : option Account :=
  locks ← decode_dict (fun v => as_str v ≫= from_iso) (r_locks rs) ;
  stats ← (match r_stats rs with
           | JObj l => Some (omap stat_value (dict_of_items l))
           | _ => None end) ;
  (* [Account] holds [str] maps: a row whose headers or cookies hold other
     JSON values is outside the model and gives [None]. *)
  headers ← decode_dict as_str (r_headers rs) ;
  cookies ← decode_dict as_str (r_cookies rs) ;
  gmail_credentials ← (match r_gmail_credentials rs with
                       | Some j => Some <$> GmailCredentials_of_json j
                       | None => Some None end) ;
  last_used ← (match r_last_used rs with
               | Some s => if String.eqb s "" then Some None else Some <$> from_iso s
               | None => Some None end) ;
  Some {| username := r_username rs; password := r_password rs; email := r_email rs;
          email_password := r_email_password rs; user_agent := r_user_agent rs;
          active := r_active rs; locks := locks; stats := stats;
          headers := headers; cookies := cookies;
          gmail_credentials := gmail_credentials; mfa_code := r_mfa_code rs;
          proxy := r_proxy rs; error_msg := r_error_msg rs;
          last_used := last_used; _tx := r__tx rs |}.

End Persistence.


(** ** account.py: [make_client] *)

Record AsyncClient := {
  client_proxy : option string;
  client_cookies : gmap string string;
  client_headers : gmap string string
}.

Definition TOKEN := "Bearer AAAAAAAAAAAAAAAAAAAAANRILgAAAAAAnNwIzUejRCOuH5E6I8xnZz4puTs%3D1Zv7ttfk8LF81IUq16cHjhLTvJu4FA33AGWWjCpTnA".

(** The headers a fresh [httpx.AsyncClient] carries. Its user agent is
    [python-httpx/<version>]; [make_client] overwrites it. *)
Definition httpx_default_headers : gmap string string :=
  <["accept":="*/*"]> (<["accept-encoding":="gzip, deflate"]>
    (<["connection":="keep-alive"]> (<["user-agent":="python-httpx"]> ∅))).

(** [os.environ] is [environ]. [client.headers.update(self.headers)] lays
    the account's headers over the defaults. Header names are kept as
    written: httpx compares them case-insensitively, so an account header
    whose name differs from one set below only in case is replaced there,
    and is a separate entry here. *)
Definition make_client (self : Account) (proxy_arg : option string)
    (environ : gmap string string) : AsyncClient :=
  let proxies := omap (fun x => x) [proxy_arg; environ !! "TWS_PROXY"; proxy self] in
  let proxy := match proxies with p :: _ => Some p | [] => None end in
  let cookies := cookies self in
  let hs := headers self ∪ httpx_default_headers in
  let hs := <["user-agent":=user_agent self]> hs in
  let hs := <["content-type":="application/json"]> hs in
  let hs := <["authorization":=TOKEN]> hs in
  let hs := <["x-twitter-active-user":="yes"]> hs in
  let hs := <["x-twitter-client-language":="en"]> hs in
  let hs := match cookies !! "ct0" with
            | Some ct0 => <["x-csrf-token":=ct0]> hs
            | None => hs end in
  {| client_proxy := proxy; client_cookies := cookies; client_headers := hs |}.

(** ** Concrete worlds and accounts *)

Definition msg_code : EmailMessage :=
  {| msg_Date := Some "Thu, 15 Aug 2024 23:40:30 GMT";
     msg_Subject := Some "Your Twitter confirmation code is 739201";
     msg_From := Some "info@x.com" |}.

Definition msg_other : EmailMessage :=
  {| msg_Date := Some "Thu, 15 Aug 2024 23:40:30 GMT";
     msg_Subject := Some "Your Twitter confirmation code is 739201";
     msg_From := Some "news@example.com" |}.

Definition mk_mailbox (l : list (Result ListResponse)) (g : list (Result EmailMessage)) : Mailbox :=
  {| mb_list := l; mb_get := g; mb_trace := [] |}.


(** Two unread messages; the second carries the code. *)
Definition listing_two : ListResponse := {| resultSizeEstimate := 2; messages := ["m1"; "m2"] |}.

Definition mb_two : Mailbox := mk_mailbox [Ok listing_two] [Ok msg_other; Ok msg_code].

(** The inbox stays empty. *)
Definition mb_empty : Mailbox := mk_mailbox [] [].



(** Valid credentials, a service, and the code waiting in the mailbox. *)
Definition creds_valid : Gmail.Credentials :=
  {| Gmail.cr_valid := true; Gmail.cr_expired := false; Gmail.cr_refresh_token := Some "r" |}.

Definition google0 : Gmail.Google :=
  {| Gmail.g_info := Ok creds_valid; Gmail.g_refresh := Ok creds_valid; Gmail.g_build := Ok tt;
     Gmail.g_mailbox := mb_two; Gmail.g_trace := [] |}.

Definition mk_world (l : list bool) : World :=
  {| w_lookups := l; w_google := google0; w_imap := []; w_imap_login := Some (imap_session "u");
     w_totp := Some "123456"; w_cookies := <["ct0":="tok"]> ∅;
     w_headers := <["user-agent":="ua"]> ∅; w_trace := [] |}.

(** username, next, no code, no email, password, login button, no code,
    no email, no MFA, navigation bar. *)
Definition w_plain : World :=
  mk_world [true; true; false; false; true; true; false; false; false; true].

(** The password field never renders. *)
Definition w_no_password : World :=
  mk_world (List.concat (List.repeat [true; true; false; false; false] 3)).



Definition acc0 : Account :=
  {| username := "alice"; password := "pw"; email := "alice@example.com";
     email_password := "epw"; user_agent := "ua"; active := false;
     locks := ∅; stats := ∅; headers := ∅; cookies := ∅;
     gmail_credentials := None; mfa_code := None; proxy := None;
     error_msg := None; last_used := None; _tx := None |}.

Definition creds0 : GmailCredentials :=
  {| token := "t"; refresh_token := "r"; client_id := "id"; client_secret := "s";
     scopes := ["https://www.googleapis.com/auth/gmail.readonly"];
     token_uri := "https://oauth2.googleapis.com/token";
     universe_domain := "googleapis.com"; account := ""; expiry := "" |}.


Definition cfg_plain : LoginConfig := {| email_first := false; manual := false; gmail := false |}.



(** The instants an account stores: the values of [locks] and [last_used]. *)
Definition account_timestamps (a : Account) : list datetime :=
  (map_to_list (locks a)).*2 ++ option_list (last_used a).

(** A timestamp survives [isoformat] then [utc.from_iso], and its text is
    non-empty (so [if doc["last_used"]] takes the parsing branch). *)
Definition timestamp_roundtrips (isoformat : datetime -> string)
    (from_iso : string -> option datetime) (t : datetime) : bool :=
  bool_decide (from_iso (isoformat t) = Some t) && negb (String.eqb (isoformat t) "").

(** A concrete timestamp codec: sign, then the binary digits. *)
Fixpoint bits_of_pos (p : positive) : string :=
  match p with
  | xH => ""
  | xO q => String "0" (bits_of_pos q)
  | xI q => String "1" (bits_of_pos q)
  end.

Fixpoint pos_of_bits (s : string) : option positive :=
  match s with
  | EmptyString => Some xH
  | String c r =>
      if Ascii.eqb c "0" then xO <$> pos_of_bits r
      else if Ascii.eqb c "1" then xI <$> pos_of_bits r
      else None
  end.

Definition isoformat_bin (t : datetime) : string :=
  match t with
  | Z0 => "z"
  | Zpos p => String "+" (bits_of_pos p)
  | Zneg p => String "-" (bits_of_pos p)
  end.

Definition from_iso_bin (s : string) : option datetime :=
  match s with
  | String c r =>
      if Ascii.eqb c "z" then (if String.eqb r "" then Some Z0 else None)
      else if Ascii.eqb c "+" then Zpos <$> pos_of_bits r
      else if Ascii.eqb c "-" then Zneg <$> pos_of_bits r
      else None
  | EmptyString => None
  end.

(** An account with non-empty [locks], [stats] and [cookies]. *)
Definition acc_stored : Account :=
  {| username := "alice"; password := "pw"; email := "alice@example.com";
     email_password := "epw"; user_agent := "ua"; active := true;
     locks := <["SearchTimeline":=1723765230%Z]> (<["UserByScreenName":=(-5)%Z]> ∅);
     stats := <["SearchTimeline":=3%Z]> (<["UserTweets":=0%Z]> ∅);
     headers := <["x-csrf-token":="abc"]> ∅;
     cookies := <["ct0":="abc"]> (<["auth_token":="tok"]> ∅);
     gmail_credentials := Some creds0; mfa_code := Some "JBSWY3DP"; proxy := None;
     error_msg := None; last_used := Some 0%Z; _tx := Some "tx" |}.

(** * Reasoning principles *)
(** How many events of a kind a trace holds. *)
Fixpoint count_ev (p : event -> bool) (tr : list event) : nat :=
  match tr with
  | [] => 0
  | ev :: tr' => ((if p ev then 1 else 0) + count_ev p tr')%nat
  end.

Definition is_quit (ev : event) : bool := match ev with EvQuit => true | _ => false end.

Definition is_open (ev : event) : bool := match ev with EvOpenPage => true | _ => false end.

(** [m] adds [d] events of kind [p] to the trace, with [Phi] relating its
    result to [d]. *)
Definition wp {A} (p : event -> bool) (m : M A) (Phi : Result A -> nat -> Prop) : Prop :=
  forall w, exists d, count_ev p (w_trace (snd (m w))) = (d + count_ev p (w_trace w))%nat /\
                      Phi (fst (m w)) d.


Open Scope list_scope.

(** ** What a computation returns or raises *)

Definition sat {W A} (P : A -> Prop) (Q : exn -> Prop) (m : St W A) : Prop :=
  forall w, match fst (m w) with Ok a => P a | Raise e => Q e end.

Lemma sat_ret {W A} (P : A -> Prop) (Q : exn -> Prop) (a : A) :
  P a -> sat (W:=W) P Q (mret a).
Proof. intros H w. exact H. Qed.

Lemma sat_raise {W A} (P : A -> Prop) (Q : exn -> Prop) (e : exn) :
  Q e -> sat (W:=W) P Q (raise e).
Proof. intros H w. exact H. Qed.

Lemma sat_bind {W A B} (P : A -> Prop) (R : B -> Prop) (Q : exn -> Prop)
    (m : St W A) (k : A -> St W B) :
  sat P Q m -> (forall a, P a -> sat R Q (k a)) -> sat R Q (m ≫= k).
Proof.
  intros Hm Hk w. unfold mbind, St_bind. specialize (Hm w).
  destruct (m w) as [[a|e] w']; simpl in *; [apply Hk|]; auto.
Qed.

Lemma sat_try {W A} (P : A -> Prop) (Q Q' : exn -> Prop) (m : St W A) p h :
  sat P Q' m ->
  (forall e, Q' e -> p e = true -> sat P Q (h e)) ->
  (forall e, Q' e -> p e = false -> Q e) ->
  sat P Q (try_except m p h).
Proof.
  intros Hm Hh Hn w. unfold try_except. specialize (Hm w).
  destruct (m w) as [[a|e] w']; simpl in *; auto.
  destruct (p e) eqn:Hp; [apply Hh|simpl]; auto.
Qed.

Lemma sat_any {W A} (m : St W A) : sat (fun _ => True) (fun _ => True) m.
Proof. intros w. destruct (fst (m w)); exact I. Qed.

Lemma sat_retry_loop {W A} (P : A -> Prop) (Q Q' : exn -> Prop) fuel n stop
    (wait : nat -> St W unit) retryable (error_callback : exn -> St W A) (f : St W A) :
  sat P Q' f ->
  (forall e, Q' e -> retryable e = false -> Q e) ->
  (forall e, Q' e -> retryable e = true -> sat P Q (error_callback e)) ->
  (forall k, sat (fun _ => True) Q (wait k)) ->
  sat P Q (retry_loop fuel n stop wait retryable error_callback f).
Proof.
  intros Hf Hn Hg Hw. revert n.
  induction fuel as [|fuel IH]; intros n w; simpl; specialize (Hf w);
    destruct (f w) as [[a|e] w']; simpl in *; auto;
    destruct (retryable e) eqn:Hr; simpl; auto;
    destruct (stop <=? n)%nat; try (apply Hg; auto).
  apply (sat_bind (fun _ => True)); auto.
Qed.

(** ** What a computation adds to the trace *)

Definition adds {A} (P : event -> Prop) (m : M A) : Prop :=
  forall w, exists tr, w_trace (snd (m w)) = tr ++ w_trace w /\ Forall P tr.

Lemma adds_ret {A} P (a : A) : adds P (mret a).
Proof. intros w. exists []. auto. Qed.

Lemma adds_raise {A} P e : adds (A:=A) P (raise e).
Proof. intros w. exists []. auto. Qed.

Lemma adds_bind {A B} P (m : M A) (k : A -> M B) :
  adds P m -> (forall a, adds P (k a)) -> adds P (m ≫= k).
Proof.
  intros Hm Hk w. unfold mbind, St_bind. destruct (Hm w) as [tr1 [E1 F1]].
  destruct (m w) as [[a|e] w'] eqn:Ew; simpl in *.
  - destruct (Hk a w') as [tr2 [E2 F2]]. exists (tr2 ++ tr1).
    rewrite E2, E1, app_assoc. split; [done|]. apply Forall_app; auto.
  - exists tr1. auto.
Qed.

Lemma adds_try {A} P (m : M A) p h :
  adds P m -> (forall e, adds P (h e)) -> adds P (try_except m p h).
Proof.
  intros Hm Hh w. unfold try_except. destruct (Hm w) as [tr1 [E1 F1]].
  destruct (m w) as [[a|e] w'] eqn:Ew; simpl in *; [exists tr1; auto|].
  destruct (p e); simpl; [|exists tr1; auto].
  destruct (Hh e w') as [tr2 [E2 F2]]. exists (tr2 ++ tr1).
  rewrite E2, E1, app_assoc. split; [done|]. apply Forall_app; auto.
Qed.

Lemma adds_retry_loop {A} P fuel n stop (wait : nat -> M unit) retryable
    (error_callback : exn -> M A) (f : M A) :
  adds P f -> (forall e, adds P (error_callback e)) -> (forall k, adds P (wait k)) ->
  adds P (retry_loop fuel n stop wait retryable error_callback f).
Proof.
  intros Hf Hg Hw. revert n. induction fuel as [|fuel IH]; intros n w; simpl;
    destruct (Hf w) as [tr1 [E1 F1]]; destruct (f w) as [[a|e] w'] eqn:Ew;
    simpl in *; try (exists tr1; auto; fail);
    destruct (retryable e); try (exists tr1; auto; fail).
  - assert (Hge : adds P (error_callback e)) by apply Hg.
    destruct (stop <=? n)%nat; destruct (Hge w') as [tr2 [E2 F2]];
      exists (tr2 ++ tr1); rewrite E2, E1, app_assoc; split; auto; apply Forall_app; auto.
  - assert (Hge : adds P (error_callback e)) by apply Hg.
    assert (Hb : adds P (wait n ;; retry_loop fuel (S n) stop wait retryable error_callback f))
      by (apply adds_bind; auto).
    destruct (stop <=? n)%nat; [destruct (Hge w') as [tr2 [E2 F2]]|destruct (Hb w') as [tr2 [E2 F2]]];
      exists (tr2 ++ tr1); rewrite E2, E1, app_assoc; split; auto; apply Forall_app; auto.
Qed.

Lemma adds_emit P ev : P ev -> adds P (emit ev).
Proof. intros H w. exists [ev]. auto. Qed.

Lemma adds_ele P sel : (forall b, P (EvLookup sel b)) -> adds P (ele sel).
Proof.
  intros H w. unfold ele. destruct (w_lookups w) as [|[|] rest];
    [exists [EvLookup sel false]|exists [EvLookup sel true]|exists [EvLookup sel false]]; auto.
Qed.

Lemma adds_gmail P c : P EvFetchGmail -> adds P (gmail_get_email_code c).
Proof.
  intros H w. unfold gmail_get_email_code.
  destruct (Gmail.gmail_get_email_code never_parses c (w_google w)).
  exists [EvFetchGmail]. auto.
Qed.

Lemma adds_lookup P sel : (forall b, P (EvLookup sel b)) -> adds P (lookup sel).
Proof.
  intros H w. unfold lookup. destruct (w_lookups w) as [|b rest];
    [exists [EvLookup sel false]|exists [EvLookup sel b]]; auto.
Qed.

Lemma adds_imap P i e : P EvFetchImap -> adds P (imap_get_email_code i e).
Proof.
  intros H w. unfold imap_get_email_code. destruct (pop_code (w_imap w)).
  exists [EvFetchImap]. auto.
Qed.

Lemma adds_imap_login P u pw : P EvImapLogin -> adds P (imap_login u pw).
Proof. intros H w. exists [EvImapLogin]. auto. Qed.

Lemma adds_silent {A} P (m : M A) : (forall w, snd (m w) = w) -> adds P m.
Proof. intros H w. exists []. rewrite H. auto. Qed.

(** ** The outcome of a login attempt *)

(** An early [return] of a challenge block is always [(None, None)]. *)
Definition early_ok (r : option Outcome) : Prop := forall o, r = Some o -> o = fail_outcome.

(** [(None, None)] or both dicts present. *)
Definition outcome_ok (o : Outcome) : Prop :=
  o = fail_outcome \/ exists c h, o = (Some c, Some h).

Ltac sat_run :=
  repeat (cbv beta;
    match goal with
    | |- sat _ _ (mret _) => apply sat_ret
    | |- sat _ _ (raise _) => apply sat_raise; exact I
    | |- sat _ _ (try_except _ _ _) =>
        apply (sat_try _ _ (fun _ => True)); [ | intros ? _ _ | intros; exact I]
    | |- sat _ _ (@mbind _ _ (option Outcome) _ _ _) =>
        apply (sat_bind early_ok); [ | intros ?r ?Hr]
    | |- sat _ _ (_ ≫= _) =>
        apply (sat_bind (fun _ => True)); [apply sat_any | intros ? _]
    | |- sat _ _ (match ?x with _ => _ end) => destruct x
    | |- sat _ _ (if ?b then _ else _) => destruct b
    end);
  unfold early_ok, outcome_ok, fail_outcome in *; intros; simplify_eq; eauto.

Lemma code_challenge_early g i e : sat early_ok (fun _ => True) (code_challenge g i e).
Proof. unfold code_challenge. sat_run. Qed.

Lemma mfa_challenge_early c : sat early_ok (fun _ => True) (mfa_challenge c).
Proof. unfold mfa_challenge. sat_run. Qed.

Lemma wait_navigation_early : sat early_ok (fun _ => True) wait_navigation.
Proof. unfold wait_navigation. sat_run. Qed.

Lemma drission_attempt_ok e c i g : sat outcome_ok (fun _ => True) (drission_attempt e c i g).
Proof.
  unfold drission_attempt.
  repeat (cbv beta;
    match goal with
    | |- sat _ _ (code_challenge _ _ _ ≫= _) =>
        apply (sat_bind early_ok); [apply code_challenge_early | intros ?r ?Hr]
    | |- sat _ _ (mfa_challenge _ ≫= _) =>
        apply (sat_bind early_ok); [apply mfa_challenge_early | intros ?r ?Hr]
    | |- sat _ _ (wait_navigation ≫= _) =>
        apply (sat_bind early_ok); [apply wait_navigation_early | intros ?r ?Hr]
    | |- sat _ _ (mret _) => apply sat_ret
    | |- sat _ _ (_ ≫= _) =>
        apply (sat_bind (fun _ => True)); [apply sat_any | intros ? _]
    | |- sat _ _ (match ?x with _ => _ end) => destruct x
    end);
  unfold early_ok, outcome_ok, fail_outcome in *; eauto.
Qed.

Lemma emit_never_raises (Q : exn -> Prop) ev : sat (fun _ => True) Q (emit ev).
Proof. intros w. exact I. Qed.

Lemma login_with_drissionpage_ok e c i g :
  sat outcome_ok (fun _ => True) (login_with_drissionpage e c i g).
Proof.
  apply (sat_retry_loop _ _ (fun _ => True)).
  - apply drission_attempt_ok.
  - auto.
  - intros. apply sat_ret. left. reflexivity.
  - intros. apply emit_never_raises.
Qed.

(** Only the non-retryable exceptions leave the decorated function. *)
Lemma login_with_drissionpage_raises e c i g :
  sat (fun _ => True) (fun x => is_load_error x = false) (login_with_drissionpage e c i g).
Proof.
  apply (sat_retry_loop _ _ (fun _ => True)).
  - apply sat_any.
  - auto.
  - intros. apply sat_ret. exact I.
  - intros. apply emit_never_raises.
Qed.

(** ** The frame of [login_alternative] *)

Definition frame_ok (acc acc' : Account) : Prop :=
  error_msg acc' = error_msg acc /\ (active acc' = false -> acc' = set_active false acc).

Lemma login_alternative_frame acc cfg dflt :
  sat (frame_ok acc) (fun x => is_load_error x = false) (login_alternative acc cfg dflt).
Proof.
  unfold login_alternative. destruct (active acc) eqn:Ha.
  { apply sat_ret. split; [reflexivity|congruence]. }
  apply (sat_bind (fun _ => True)).
  { destruct (_ && _).
    - apply (sat_bind (fun _ => True)); [|intros; apply sat_ret; exact I].
      intros w. unfold imap_login. destruct (w_imap_login w); simpl; auto.
    - apply sat_ret. exact I. }
  intros imap _.
  apply (sat_bind (fun _ => True)); [apply login_with_drissionpage_raises|].
  intros [[c|] [h|]] _; [destruct (_ && _)|..]; apply sat_ret; split; simpl; auto; congruence.
Qed.

(** * The claims *)

(** ** C8 *)

(** C8: the outcome of [login_with_drissionpage] is never partially valid:
    whatever the page and the mail backends do, a returned [(cookies,
    headers)] has both present or both [None]. *)
Theorem login_with_drissionpage_never_partial (e mfa : option string)
    (i : option IMAP4_SSL) (g : option GmailCredentials) (w : World) :
  match fst (login_with_drissionpage e mfa i g w) with
  | Ok (c, h) => (c = None /\ h = None) \/ (exists c' h', c = Some c' /\ h = Some h')
  | Raise _ => True
  end.
Proof.
  pose proof (login_with_drissionpage_ok e mfa i g w) as H.
  destruct (fst _) as [[c h]|]; [|exact I].
  destruct H as [H|(c' & h' & H)]; unfold fail_outcome in H; simplify_eq; eauto.
Qed.

(** ** C1 *)




(** ** C2 *)

(** C2: on an active account [login_alternative] returns the account as it
    is and leaves the world untouched: no page, no IMAP login, no mail
    fetch. *)
Theorem login_alternative_active_noop (acc : Account) (cfg : option LoginConfig)
    (dflt : LoginConfig) (w : World) (Hactive : active acc = true) :
  login_alternative acc cfg dflt w = (Ok acc, w).
Proof. unfold login_alternative. rewrite Hactive. reflexivity. Qed.

Lemma login_alternative_active_noop_witness :
  active (set_active true acc0) = true /\
  login_alternative (set_active true acc0) (Some cfg_plain) cfg_plain w_plain
    = (Ok (set_active true acc0), w_plain).
Proof.
  split; [reflexivity|].
  apply (login_alternative_active_noop (set_active true acc0) (Some cfg_plain) cfg_plain w_plain).
  reflexivity.
Defined.

(** ** C9 *)

(** C9: when [login_alternative] returns an inactive account (the attempt
    produced no usable cookies and headers), that account is the input with
    [active] set to false and every other field as it was. *)
Theorem login_alternative_failure_frame (acc : Account) (cfg : option LoginConfig)
    (dflt : LoginConfig) (w w' : World) (acc' : Account)
    (Hrun : login_alternative acc cfg dflt w = (Ok acc', w'))
    (Hfail : active acc' = false) :
  acc' = set_active false acc.
Proof.
  pose proof (login_alternative_frame acc cfg dflt w) as H.
  rewrite Hrun in H. apply H. exact Hfail.
Qed.

Lemma login_alternative_failure_frame_witness :
  login_alternative acc0 (Some cfg_plain) cfg_plain w_no_password
    = (Ok (set_active false acc0),
       snd (login_alternative acc0 (Some cfg_plain) cfg_plain w_no_password)) /\
  set_active false acc0 = set_active false acc0.
Proof.
  split; [vm_compute; reflexivity|].
  apply (login_alternative_failure_frame acc0 (Some cfg_plain) cfg_plain w_no_password
           (snd (login_alternative acc0 (Some cfg_plain) cfg_plain w_no_password))
           (set_active false acc0)); [vm_compute; reflexivity | reflexivity].
Defined.

(** ** C7 *)

Lemma emit_ok ev w : emit ev w = (Ok tt, snd (emit ev w)).
Proof. reflexivity. Qed.

(** C7: the decorator of [login_with_drissionpage]: a returned outcome is
    final; an exception outside [PageLoadError] / [ElementLoadError] is
    re-raised after one attempt; when every attempt fails with one of those
    two (e.g. the password field never renders), exactly three attempts
    run, separated by fixed 5 s sleeps, and the call returns
    [(None, None)] instead of raising. *)
Theorem login_with_drissionpage_retry_policy (e mfa : option string)
    (i : option IMAP4_SSL) (g : option GmailCredentials) (w0 : World) :
  (forall o w1, drission_attempt e mfa i g w0 = (Ok o, w1) ->
     login_with_drissionpage e mfa i g w0 = (Ok o, w1)) /\
  (forall x w1, drission_attempt e mfa i g w0 = (Raise x, w1) -> is_load_error x = false ->
     login_with_drissionpage e mfa i g w0 = (Raise x, w1)) /\
  (forall x1 w1 x2 w2 x3 w3,
     drission_attempt e mfa i g w0 = (Raise x1, w1) -> is_load_error x1 = true ->
     drission_attempt e mfa i g (snd (emit (EvSleep LOGIN_WAIT_SECS) w1)) = (Raise x2, w2) ->
     is_load_error x2 = true ->
     drission_attempt e mfa i g (snd (emit (EvSleep LOGIN_WAIT_SECS) w2)) = (Raise x3, w3) ->
     is_load_error x3 = true ->
     login_with_drissionpage e mfa i g w0 = (Ok fail_outcome, w3)).
Proof.
  unfold login_with_drissionpage, tenacity_retry, LOGIN_STOP_ATTEMPTS.
  split; [|split].
  - intros o w1 H. cbn -[drission_attempt emit]. rewrite H. reflexivity.
  - intros x w1 H Hx. cbn -[drission_attempt emit]. rewrite H, Hx. reflexivity.
  - intros x1 w1 x2 w2 x3 w3 H1 Hx1 H2 Hx2 H3 Hx3.
    cbn -[drission_attempt emit]. rewrite H1, Hx1. cbn -[drission_attempt emit].
    unfold mbind, St_bind. rewrite (emit_ok _ w1). cbn -[drission_attempt emit].
    rewrite H2, Hx2. cbn -[drission_attempt emit].
    rewrite (emit_ok _ w2). cbn -[drission_attempt emit].
    rewrite H3, Hx3. reflexivity.
Qed.

Lemma login_with_drissionpage_retry_policy_witness :
  let a := drission_attempt (Some "alice@example.com") None None None in
  let w1 := snd (a w_no_password) in
  let w2 := snd (a (snd (emit (EvSleep LOGIN_WAIT_SECS) w1))) in
  let w3 := snd (a (snd (emit (EvSleep LOGIN_WAIT_SECS) w2))) in
  login_with_drissionpage (Some "alice@example.com") None None None w_no_password
    = (Ok fail_outcome, w3).
Proof.
  intros a w1 w2 w3.
  apply (proj2 (proj2 (login_with_drissionpage_retry_policy
           (Some "alice@example.com") None None None w_no_password))
           ElementLoadError w1 ElementLoadError w2 ElementLoadError w3);
    vm_compute; reflexivity.
Defined.

(** ** C10 *)

(** C10: [make_client] takes the first proxy that is not [None] among the
    argument, [TWS_PROXY] from the environment and the account's own. *)
Theorem make_client_proxy_precedence (self : Account) (proxy_arg : option string)
    (environ : gmap string string) :
  client_proxy (make_client self proxy_arg environ) =
  match proxy_arg with
  | Some p => Some p
  | None => match environ !! "TWS_PROXY" with Some p => Some p | None => proxy self end
  end.
Proof.
  unfold make_client. cbn.
  destruct proxy_arg, (environ !! "TWS_PROXY"), (proxy self); reflexivity.
Qed.

(** ** C6 *)







Lemma space_is_space : Py.is_space " " = true.
Proof. reflexivity. Qed.








(** ** C5 *)

(** A listing answer that [get_emails] retries: an API error or an empty
    unread list. *)
Definition list_fails (x : Result ListResponse) : Prop :=
  match x with
  | Raise HttpError => True
  | Ok r => resultSizeEstimate r = 0%nat
  | Raise _ => False
  end.

Fixpoint list_calls (tr : list event) : nat :=
  match tr with
  | [] => 0
  | EvListUnread :: rest => S (list_calls rest)
  | _ :: rest => list_calls rest
  end.

Lemma list_calls_app tr1 tr2 : list_calls (tr1 ++ tr2) = (list_calls tr1 + list_calls tr2)%nat.
Proof. induction tr1 as [|[] tr1 IH]; simpl; auto. Qed.

Lemma retry_loop_ok {W A} fuel k stop (wait : nat -> St W unit) retryable error_callback
    (f : St W A) w a w' :
  f w = (Ok a, w') -> retry_loop fuel k stop wait retryable error_callback f w = (Ok a, w').
Proof. intros H. destruct fuel; simpl; rewrite H; reflexivity. Qed.

Lemma list_attempt_fails mb :
  list_fails (match mb_list mb with x :: _ => x | [] => Ok {| resultSizeEstimate := 0; messages := [] |} end) ->
  exists e, is_Http_or_NoEmail e = true /\
    list_attempt mb = (Raise e, {| mb_list := tail (mb_list mb); mb_get := mb_get mb;
                                   mb_trace := EvListUnread :: mb_trace mb |}).
Proof.
  unfold list_attempt, list_unread, mbind, St_bind.
  destruct (mb_list mb) as [|[r|[]] rest]; simpl; intros H; try contradiction.
  - exists NoEmailFoundError. split; reflexivity.
  - rewrite H. exists NoEmailFoundError. split; reflexivity.
  - exists HttpError. split; reflexivity.
Qed.


Lemma read_message_ok msg_id m g' mb :
  mb_get mb = Ok m :: g' ->
  _read_message msg_id mb =
    (Ok m, {| mb_list := mb_list mb; mb_get := g'; mb_trace := EvReadMessage msg_id :: mb_trace mb |}).
Proof.
  intros Hg. unfold _read_message, tenacity_retry. apply retry_loop_ok.
  unfold get_message. rewrite Hg. reflexivity.
Qed.

(** Reading listed messages that carry no code only moves on. *)
Lemma scan_messages_skip {dt} (pt : string -> option dt) ids1 ids2 msgs1 g' mb :
  length msgs1 = length ids1 ->
  mb_get mb = (Ok <$> msgs1) ++ g' ->
  Forall (fun m => no_code pt m = true) msgs1 ->
  exists tr, scan_messages pt (ids1 ++ ids2) mb
             = scan_messages pt ids2 {| mb_list := mb_list mb; mb_get := g'; mb_trace := tr |}.
Proof.
  revert msgs1 mb. induction ids1 as [|id1 ids1 IH]; intros msgs1 mb Hl Hg Hq.
  - destruct msgs1; [|discriminate]. simpl in Hg. destruct mb as [l gl tr].
    simpl in Hg. subst gl. exists tr. reflexivity.
  - destruct msgs1 as [|m1 msgs1]; [discriminate|]. simpl in Hl.
    inversion Hq as [|? ? Hm1 Hq']; subst. simpl in Hg. simpl. unfold mbind, St_bind.
    rewrite (read_message_ok _ _ _ _ Hg). unfold no_code in Hm1.
    destruct (_parse_code pt m1) as [c|] eqn:Ec; [|discriminate].
    apply negb_true_iff in Hm1. unfold of_result. simpl. rewrite Hm1.
    destruct (IH msgs1 {| mb_list := mb_list mb; mb_get := (Ok <$> msgs1) ++ g';
                          mb_trace := EvReadMessage id1 :: mb_trace mb |}) as [tr E];
      auto.
    exists tr. exact E.
Qed.


(** The first listed message that is read and does not merely lack a
    code decides. *)
Lemma scan_messages_stop {dt} (pt : string -> option dt) ids1 id ids2 msgs1 m g' mb :
  length msgs1 = length ids1 ->
  mb_get mb = (Ok <$> msgs1) ++ Ok m :: g' ->
  Forall (fun m => no_code pt m = true) msgs1 ->
  no_code pt m = false ->
  fst (scan_messages pt (ids1 ++ id :: ids2) mb) = _parse_code pt m /\
  mb_get (snd (scan_messages pt (ids1 ++ id :: ids2) mb)) = g' /\
  mb_list (snd (scan_messages pt (ids1 ++ id :: ids2) mb)) = mb_list mb.
Proof.
  intros Hl Hg Hq Hm.
  destruct (scan_messages_skip pt ids1 (id :: ids2) msgs1 (Ok m :: g') mb Hl Hg Hq) as [tr E].
  rewrite E. simpl. unfold mbind, St_bind.
  rewrite (read_message_ok id m g'); [|reflexivity].
  unfold no_code in Hm. unfold of_result. simpl.
  destruct (_parse_code pt m) as [c|e]; simpl; [|auto].
  apply negb_false_iff in Hm. rewrite Hm. auto.
Qed.

Lemma scan_messages_unreadable {dt} (pt : string -> option dt) ids1 id ids2 msgs1 g' mb :
  length msgs1 = length ids1 ->
  mb_get mb = (Ok <$> msgs1) ++ repeat (Raise HttpError) 5 ++ g' ->
  Forall (fun m => no_code pt m = true) msgs1 ->
  fst (scan_messages pt (ids1 ++ id :: ids2) mb) = Raise RetryError.
Proof.
  intros Hl Hg Hq.
  destruct (scan_messages_skip pt ids1 (id :: ids2) msgs1 _ mb Hl Hg Hq) as [tr E].
  rewrite E. reflexivity.
Qed.

Lemma get_emails_listed {dt} (pt : string -> option dt) n mb r rest :
  mb_list mb = Ok r :: rest -> (0 < resultSizeEstimate r)%nat ->
  get_emails pt n mb =
    scan_messages pt (messages r)
      {| mb_list := rest; mb_get := mb_get mb; mb_trace := EvListUnread :: mb_trace mb |}.
Proof.
  intros Hl Hr. unfold get_emails, tenacity_retry, mbind, St_bind.
  rewrite (retry_loop_ok _ _ _ _ _ _ _ mb r
             {| mb_list := rest; mb_get := mb_get mb; mb_trace := EvListUnread :: mb_trace mb |}).
  - apply Nat.ltb_lt in Hr. rewrite Hr. reflexivity.
  - unfold list_attempt, list_unread, mbind, St_bind. rewrite Hl. simpl.
    destruct (resultSizeEstimate r) eqn:E; [lia|reflexivity].
Qed.





(** ** Counting events *)

Lemma count_ev_app p tr1 tr2 : count_ev p (tr1 ++ tr2) = count_ev p tr1 + count_ev p tr2.
Proof. induction tr1 as [|ev tr1 IH]; simpl; [reflexivity|]. rewrite IH. lia. Qed.

Lemma wp_ret {A} p (a : A) (Phi : Result A -> nat -> Prop) : Phi (Ok a) 0 -> wp p (mret a) Phi.
Proof. intros H w. exists 0. auto. Qed.

Lemma wp_raise {A} p e (Phi : Result A -> nat -> Prop) : Phi (Raise e) 0 -> wp p (raise e) Phi.
Proof. intros H w. exists 0. auto. Qed.

Lemma wp_bind {A B} p (m : M A) (k : A -> M B) (Phi : Result B -> nat -> Prop) :
  wp p m (fun r d1 => match r with
                      | Ok a => wp p (k a) (fun r2 d2 => Phi r2 (d2 + d1))
                      | Raise e => Phi (Raise e) d1
                      end) ->
  wp p (m ≫= k) Phi.
Proof.
  intros Hm w. unfold mbind, St_bind. destruct (Hm w) as [d1 [E1 H1]].
  destruct (m w) as [[a|e] w'] eqn:Ew; simpl in *.
  - destruct (H1 w') as [d2 [E2 H2]]. exists (d2 + d1). split; [lia|exact H2].
  - exists d1. auto.
Qed.

Lemma wp_try {A} p (m : M A) (pe : exn -> bool) (h : exn -> M A) (Phi : Result A -> nat -> Prop) :
  wp p m (fun r d1 => match r with
                      | Ok a => Phi (Ok a) d1
                      | Raise e => if pe e then wp p (h e) (fun r2 d2 => Phi r2 (d2 + d1))
                                   else Phi (Raise e) d1
                      end) ->
  wp p (try_except m pe h) Phi.
Proof.
  intros Hm w. unfold try_except. destruct (Hm w) as [d1 [E1 H1]].
  destruct (m w) as [[a|e] w'] eqn:Ew; simpl in *; [exists d1; auto|].
  destruct (pe e); [|exists d1; auto].
  destruct (H1 w') as [d2 [E2 H2]]. exists (d2 + d1). split; [lia|exact H2].
Qed.

Lemma wp_emit (p : event -> bool) (ev : event) (Phi : Result unit -> nat -> Prop) :
  Phi (Ok tt) (if p ev then 1 else 0) -> wp p (emit ev) Phi.
Proof. intros H w. eexists. split; [|exact H]. simpl. reflexivity. Qed.

Lemma wp_ele (p : event -> bool) (sel : string) (Phi : Result unit -> nat -> Prop) :
  (forall b, p (EvLookup sel b) = false) ->
  (forall r, r = Ok tt \/ r = Raise ElementNotFoundError -> Phi r 0) -> wp p (ele sel) Phi.
Proof.
  intros Hp H w. exists 0. unfold ele.
  destruct (w_lookups w) as [|[|] rest]; simpl; rewrite Hp; auto.
Qed.

Lemma wp_lookup (p : event -> bool) (sel : string) (Phi : Result unit -> nat -> Prop) :
  (forall b, p (EvLookup sel b) = false) -> Phi (Ok tt) 0 -> wp p (lookup sel) Phi.
Proof.
  intros Hp H w. exists 0. unfold lookup.
  destruct (w_lookups w) as [|b rest]; simpl; rewrite Hp; auto.
Qed.

Lemma wp_silent {A} p (m : M A) (Phi : Result A -> nat -> Prop) :
  adds (fun ev => p ev = false) m -> (forall r, Phi r 0) -> wp p m Phi.
Proof.
  intros Ha H w. destruct (Ha w) as [tr [E F]]. exists 0. split; [|apply H].
  rewrite E, count_ev_app. enough (count_ev p tr = 0) by lia. clear E.
  induction F as [|ev tr Hev _ IH]; simpl; [reflexivity|]. rewrite Hev. exact IH.
Qed.

Lemma wp_totp (p : event -> bool) (s : string) (Phi : Result string -> nat -> Prop) :
  (forall r, (exists c, r = Ok c) \/ r = Raise (OtherError "binascii.Error") -> Phi r 0) ->
  wp p (totp_now s) Phi.
Proof.
  intros H w. exists 0. split; [reflexivity|]. apply H. unfold totp_now.
  destruct (w_totp w); simpl; eauto.
Qed.

Lemma wp_page {A} p (m : M A) (Phi : Result A -> nat -> Prop) :
  (forall w, snd (m w) = w /\ exists a, fst (m w) = Ok a) ->
  (forall a, Phi (Ok a) 0) -> wp p m Phi.
Proof.
  intros Hm H w. destruct (Hm w) as [E [a Ea]]. exists 0.
  rewrite E, Ea. auto.
Qed.

Lemma get_email_code_silent (p : event -> bool) g i e :
  p EvFetchGmail = false -> p EvFetchImap = false ->
  adds (fun ev => p ev = false) (get_email_code g i e).
Proof.
  intros Hg Hi. destruct g as [c|]; [apply adds_gmail; exact Hg|].
  destruct i, e as [s|]; try apply adds_ret. unfold get_email_code.
  destruct (Py.truthy (Some s)); [apply adds_imap; exact Hi|apply adds_ret].
Qed.

Ltac wp_run :=
  repeat (cbv beta iota delta [is_ENF is_Exception];
    match goal with
    | |- wp _ (mret _) _ => apply wp_ret
    | |- wp _ (raise _) _ => apply wp_raise
    | |- wp _ (_ ≫= _) _ => apply wp_bind
    | |- wp _ (try_except _ _ _) _ => apply wp_try
    | |- wp _ (emit _) _ => apply wp_emit
    | |- wp _ quit _ => apply wp_emit
    | |- wp _ (ele _) _ => apply wp_ele; [intros ?; reflexivity | intros ?r [-> | ->]]
    | |- wp _ (lookup _) _ => apply wp_lookup; [intros ?; reflexivity |]
    | |- wp _ (get_email_code _ _ _) _ =>
        apply wp_silent; [apply get_email_code_silent; reflexivity | intros [?r | ?e]]
    | |- wp _ (totp_now _) _ => apply wp_totp; intros ?r [[?c ->] | ->]
    | |- wp _ page_cookies _ => apply wp_page; [intros ?w; split; [reflexivity | eexists; reflexivity] | intros ?a]
    | |- wp _ page_headers _ => apply wp_page; [intros ?w; split; [reflexivity | eexists; reflexivity] | intros ?a]
    | |- wp _ (match ?x with _ => _ end) _ => destruct x
    | |- wp _ (if ?b then _ else _) _ => destruct b
    end).









(** ** C4 *)

Ltac adds_run :=
  repeat (cbv beta;
    match goal with
    | |- adds _ (mret _) => apply adds_ret
    | |- adds _ (raise _) => apply adds_raise
    | |- adds _ (try_except _ _ _) => apply adds_try; [|intros ?]
    | |- adds _ (_ ≫= _) => apply adds_bind; [|intros ?]
    | |- adds _ (ele _) => apply adds_ele; intros ?
    | |- adds _ (lookup _) => apply adds_lookup; intros ?
    | |- adds _ (emit _) => apply adds_emit
    | |- adds _ quit => apply adds_emit
    | |- adds _ (imap_login _ _) => apply adds_imap_login
    | |- adds _ (totp_now _) => apply adds_silent; intros ?; reflexivity
    | |- adds _ page_cookies => apply adds_silent; intros ?; reflexivity
    | |- adds _ page_headers => apply adds_silent; intros ?; reflexivity
    | H : adds _ (get_email_code _ _ _) |- adds _ (get_email_code _ _ _) => exact H
    | |- adds _ (match ?x with _ => _ end) => destruct x
    | |- adds _ (if ?b then _ else _) => destruct b
    end);
  try assumption.

Lemma drission_attempt_adds (P : event -> Prop) e mfa i g :
  (forall sel b, P (EvLookup sel b)) -> P EvOpenPage -> P EvQuit ->
  adds P (get_email_code g i e) -> adds P (drission_attempt e mfa i g).
Proof.
  intros Hl Ho Hq Hg.
  unfold drission_attempt, code_challenge, email_challenge, mfa_challenge, wait_navigation.
  adds_run; auto.
Qed.

Lemma login_alternative_adds (P : event -> Prop) acc cfg dflt :
  (forall sel b, P (EvLookup sel b)) -> P EvOpenPage -> P EvQuit ->
  P (EvSleep LOGIN_WAIT_SECS) -> P EvImapLogin ->
  adds P (get_email_code
            (if gmail cfg && bool_decide (is_Some (gmail_credentials acc))
             then gmail_credentials acc else None) None (Some (email acc))) ->
  adds P (login_alternative acc (Some cfg) dflt).
Proof.
  intros Hl Ho Hq Hs Hi Hg. unfold login_alternative.
  destruct (active acc); [apply adds_ret|].
  apply adds_bind; [destruct (_ && _); adds_run|intros imap].
  apply adds_bind; [|intros [c h]; adds_run].
  apply adds_retry_loop; [apply drission_attempt_adds; auto|intros; apply adds_ret|].
  intros; apply adds_emit; exact Hs.
Qed.





(** ** C3 *)

Lemma decode_items_map {A} (f : json -> option A) (g : A -> json) (l : list (string * A)) :
  Forall (fun kv => f (g kv.2) = Some kv.2) l ->
  decode_items f ((fun kv => (kv.1, g kv.2)) <$> l) = Some l.
Proof.
  induction 1 as [|[k v] l Hv _ IH]; [reflexivity|].
  rewrite fmap_cons. cbn [decode_items fst snd] in *. rewrite Hv, IH. reflexivity.
Qed.

Lemma dict_of_items_foldr {A} (l : list (string * A)) (m0 : gmap string A) :
  foldl (fun m kv => <[kv.1:=kv.2]> m) m0 l
  = foldr (fun kv m => <[kv.1:=kv.2]> m) m0 (reverse l).
Proof.
  revert m0. induction l as [|x l IH]; intros m0; [reflexivity|].
  simpl. rewrite IH, reverse_cons, foldr_app. reflexivity.
Qed.

Lemma dict_of_items_map_to_list {A} (m : gmap string A) :
  dict_of_items (map_to_list m) = m.
Proof.
  unfold dict_of_items. rewrite dict_of_items_foldr.
  change (list_to_map (reverse (map_to_list m)) = m).
  rewrite (list_to_map_proper (reverse (map_to_list m)) (map_to_list m)).
  - apply list_to_map_to_list.
  - rewrite fmap_reverse. rewrite reverse_Permutation. apply NoDup_fst_map_to_list.
  - apply reverse_Permutation.
Qed.

Lemma dict_of_items_obj {A} (g : A -> json) (m : gmap string A) :
  dict_of_items ((fun kv => (kv.1, g kv.2)) <$> map_to_list m) = g <$> m.
Proof.
  change ((fun kv : string * A => (kv.1, g kv.2)) <$> map_to_list m)
    with (prod_map id g <$> map_to_list m).
  rewrite <- map_to_list_fmap. apply dict_of_items_map_to_list.
Qed.

Lemma decode_dict_obj {A} (f : json -> option A) (g : A -> json) (m : gmap string A) :
  Forall (fun kv => f (g kv.2) = Some kv.2) (map_to_list m) ->
  decode_dict f (json_obj_map g m) = Some m.
Proof.
  intros H. unfold decode_dict, json_obj_map. rewrite dict_of_items_obj, map_to_list_fmap.
  change (prod_map id g <$> map_to_list m)
    with ((fun kv : string * A => (kv.1, g kv.2)) <$> map_to_list m).
  rewrite (decode_items_map f g _ H). simpl. rewrite dict_of_items_map_to_list. reflexivity.
Qed.

Lemma stats_filter_ints (m : gmap string Z) :
  omap stat_value (dict_of_items ((fun kv => (kv.1, JInt kv.2)) <$> map_to_list m)) = m.
Proof.
  rewrite dict_of_items_obj. apply map_eq. intros k.
  rewrite lookup_omap, lookup_fmap. destruct (m !! k); reflexivity.
Qed.

Lemma str_list_JStr (l : list string) : str_list (JStr <$> l) = Some l.
Proof.
  induction l as [|s l IH]; [reflexivity|].
  rewrite fmap_cons. cbn [str_list]. rewrite IH. reflexivity.
Qed.

Lemma GmailCredentials_json_roundtrip (c : GmailCredentials) :
  GmailCredentials_of_json (GmailCredentials_json c) = Some c.
Proof.
  destruct c. unfold GmailCredentials_of_json, GmailCredentials_json.
  generalize (str_list_JStr scopes0). generalize str_list as sl. intros sl Hjs.
  vm_compute in Hjs |- *. rewrite Hjs. reflexivity.
Qed.

Lemma timestamps_ok isoformat from_iso (a : Account) :
  forallb (timestamp_roundtrips isoformat from_iso) (account_timestamps a) = true ->
  Forall (fun kv => as_str (JStr (isoformat kv.2)) ≫= from_iso = Some kv.2) (map_to_list (locks a)) /\
  (forall t, last_used a = Some t -> from_iso (isoformat t) = Some t /\ String.eqb (isoformat t) "" = false).
Proof.
  intros H0. pose proof (proj1 (forallb_forall _ _) H0) as H. clear H0. unfold account_timestamps in H.
  assert (Ht : forall t, In t ((map_to_list (locks a)).*2 ++ option_list (last_used a)) ->
            from_iso (isoformat t) = Some t /\ String.eqb (isoformat t) "" = false).
  { intros t Hin. apply H in Hin. unfold timestamp_roundtrips in Hin.
    apply andb_true_iff in Hin as [H1 H2]. apply bool_decide_eq_true in H1.
    split; [exact H1|]. destruct (String.eqb _ _); [discriminate|reflexivity]. }
  split.
  - apply Forall_forall. intros [k t] Hin. cbn. apply Ht, list_elem_of_In, elem_of_app. left.
    apply list_elem_of_fmap. exists (k, t). split; [reflexivity|]. exact Hin.
  - intros t Hu. apply Ht, in_or_app. right. rewrite Hu. left. reflexivity.
Qed.

(** C3: for every account whose timestamps (the values of [locks] and
    [last_used]) survive [isoformat] followed by [utc.from_iso], reloading
    the row [to_rs] writes with [from_rs] gives back the same account, field
    for field; in particular for accounts with non-empty [locks], [stats]
    and [cookies]. *)
Theorem account_rs_roundtrip (isoformat : datetime -> string)
    (from_iso : string -> option datetime) (a : Account)
    (Hts : forallb (timestamp_roundtrips isoformat from_iso) (account_timestamps a) = true) :
  from_rs from_iso (to_rs isoformat a) = Some a.
Proof.
  destruct (timestamps_ok _ _ _ Hts) as [Hl Hu]. clear Hts.
  destruct a; cbn [locks last_used] in Hl, Hu.
  unfold from_rs, to_rs.
  cbn [r_locks r_stats r_headers r_cookies r_gmail_credentials r_last_used].
  rewrite (decode_dict_obj _ (fun t => JStr (isoformat t)) _ Hl).
  cbn [stats headers cookies gmail_credentials last_used username password email
       email_password user_agent active mfa_code proxy error_msg _tx].
  rewrite !(decode_dict_obj as_str JStr) by (apply Forall_forall; intros; reflexivity).
  cbn [mbind option_bind]. unfold json_obj_map. rewrite stats_filter_ints.
  destruct gmail_credentials0 as [c|]; cbn [fmap option_fmap option_map];
    [rewrite GmailCredentials_json_roundtrip|]; simpl;
  (destruct last_used0 as [t|]; simpl;
    [destruct (Hu t eq_refl) as [H1 H2]; rewrite H2; simpl; rewrite H1|]);
  reflexivity.
Qed.

Lemma account_rs_roundtrip_witness :
  forallb (timestamp_roundtrips isoformat_bin from_iso_bin) (account_timestamps acc_stored) = true /\
  from_rs from_iso_bin (to_rs isoformat_bin acc_stored) = Some acc_stored.
Proof.
  split; [vm_compute; reflexivity|].
  apply (account_rs_roundtrip isoformat_bin from_iso_bin acc_stored). vm_compute. reflexivity.
Defined.

(** * Further properties of the code *)

(** ** account.py: [make_client] *)

(** [make_client] always sends the account's user agent, a JSON content
    type, the bearer [TOKEN] and the two [x-twitter-*] headers, carries the
    account's cookies, and when a "ct0" cookie is stored sends it as the
    CSRF token. *)
Theorem make_client_session_headers (self : Account) (proxy_arg : option string)
    (environ : gmap string string) :
  let c := make_client self proxy_arg environ in
  client_headers c !! "user-agent" = Some (user_agent self) /\
  client_headers c !! "content-type" = Some "application/json" /\
  client_headers c !! "authorization" = Some TOKEN /\
  client_headers c !! "x-twitter-active-user" = Some "yes" /\
  client_headers c !! "x-twitter-client-language" = Some "en" /\
  client_cookies c = cookies self /\
  (forall ct0, cookies self !! "ct0" = Some ct0 -> client_headers c !! "x-csrf-token" = Some ct0).
Proof.
  unfold make_client. cbn. destruct (cookies self !! "ct0") as [t|] eqn:Hc.
  - repeat split; try (intros ? [=<-]); by simplify_map_eq.
  - repeat split; try (intros ? [=]); by simplify_map_eq.
Qed.

(** ** login_alternative.py: the IMAP session *)

Lemma get_email_code_no_imap (P : event -> Prop) g e :
  P EvFetchGmail -> adds P (get_email_code g None e).
Proof.
  intros H. destruct g as [c|]; [apply adds_gmail; exact H|].
  destruct e; apply adds_ret.
Qed.

(** [login_alternative] never fetches a confirmation code over IMAP, for
    any account, configuration and behaviour of the page and the
    mailboxes: the session it may open with [imap_login] (when
    [cfg.email_first] is set and [cfg.manual] is not) is not passed on. *)
Theorem login_alternative_never_fetches_imap (acc : Account)
    (cfg : option LoginConfig) (dflt : LoginConfig) :
  adds (fun ev => ev <> EvFetchImap) (login_alternative acc cfg dflt).
Proof.
  assert (H : forall c, adds (fun ev => ev <> EvFetchImap) (login_alternative acc (Some c) dflt)).
  { intros c. apply login_alternative_adds; try (intros; discriminate).
    apply get_email_code_no_imap. discriminate. }
  destruct cfg as [c|]; [apply H|exact (H dflt)].
Qed.

(** ** login_alternative.py: the page of an attempt *)

Lemma drission_attempt_quits e mfa i g :
  wp is_quit (drission_attempt e mfa i g)
    (fun r d => d = match r with
                    | Ok _ => 1
                    | Raise PageLoadError => 1
                    | Raise _ => 0
                    end).
Proof.
  unfold drission_attempt, code_challenge, email_challenge, mfa_challenge, wait_navigation.
  wp_run; simpl; lia.
Qed.

Lemma drission_attempt_opens e mfa i g :
  wp is_open (drission_attempt e mfa i g) (fun _ d => d = 1).
Proof.
  unfold drission_attempt, code_challenge, email_challenge, mfa_challenge, wait_navigation.
  wp_run; simpl; lia.
Qed.

(** Each attempt of [login_with_drissionpage] opens one page. It closes
    it exactly once when it returns (an outcome or [(None, None)]) and when
    it raises [PageLoadError]; it never closes it when it raises anything
    else: [ElementLoadError] (password field or login button missing), an
    [ElementNotFoundError] from the unguarded "Next" click, or an error of
    the TOTP seed. *)
Theorem drission_attempt_page_lifecycle (e mfa : option string)
    (i : option IMAP4_SSL) (g : option GmailCredentials) (w : World) :
  let '(r, w') := drission_attempt e mfa i g w in
  count_ev is_open (w_trace w') = S (count_ev is_open (w_trace w)) /\
  count_ev is_quit (w_trace w') =
    ((match r with
      | Ok _ => 1
      | Raise PageLoadError => 1
      | Raise _ => 0
      end) + count_ev is_quit (w_trace w))%nat.
Proof.
  destruct (drission_attempt_opens e mfa i g w) as [d1 [E1 H1]].
  destruct (drission_attempt_quits e mfa i g w) as [d2 [E2 H2]].
  destruct (drission_attempt e mfa i g w) as [r w'].
  simpl in *. subst. split; [exact E1|exact E2].
Qed.

(** ** gmail.py: [_read_message] *)

Fixpoint jitter_waits (tr : list event) : nat :=
  match tr with
  | [] => 0
  | EvSleepJitter _ :: tr' => S (jitter_waits tr')
  | _ :: tr' => jitter_waits tr'
  end.

(** [_read_message] reads a message up to 5 times: after [k < 5] failed
    reads with [HttpError] it returns the message, having waited [k] times;
    after 5 it raises [RetryError]; any other exception is raised at once,
    with no retry. *)
Theorem _read_message_retries (msg_id : string) (mb : Mailbox) :
  (forall k m g', (k < 5)%nat -> mb_get mb = repeat (Raise HttpError) k ++ Ok m :: g' ->
     fst (_read_message msg_id mb) = Ok m /\ mb_get (snd (_read_message msg_id mb)) = g' /\
     jitter_waits (mb_trace (snd (_read_message msg_id mb))) = (k + jitter_waits (mb_trace mb))%nat) /\
  (forall g', mb_get mb = repeat (Raise HttpError) 5 ++ g' ->
     fst (_read_message msg_id mb) = Raise RetryError /\ mb_get (snd (_read_message msg_id mb)) = g') /\
  (forall e g', e <> HttpError -> mb_get mb = Raise e :: g' ->
     _read_message msg_id mb =
       (Raise e, {| mb_list := mb_list mb; mb_get := g'; mb_trace := EvReadMessage msg_id :: mb_trace mb |})).
Proof.
  unfold _read_message, tenacity_retry. destruct mb as [l gl tr]. cbn [mb_get].
  split; [|split].
  - intros k m g' Hk ->.
    destruct k as [|[|[|[|[|k]]]]]; try lia; cbn; auto.
  - intros g' ->. cbn. auto.
  - intros e g' He ->. cbn.
    destruct e; try reflexivity. contradiction.
Qed.

(** ** gmail.py: [get_emails] reading the listed messages *)

Lemma read_message_exhausted msg_id g' mb :
  mb_get mb = repeat (Raise HttpError) 5 ++ g' ->
  fst (_read_message msg_id mb) = Raise RetryError /\ mb_get (snd (_read_message msg_id mb)) = g'.
Proof.
  destruct mb as [l gl tr]. cbn [mb_get]. intros ->. cbn. auto.
Qed.

(** Once a listing returns unread messages, [get_emails] reads them in
    listing order, skipping those read without a code; the first message
    that has a code gives it, and one whose headers make [_parse_code]
    raise aborts with that exception, reading no message after it in both
    cases; a message that cannot be read (5 [HttpError]s) aborts it with
    [RetryError], even when a later message carries a code. *)
Theorem get_emails_scan_order {dt} (pt : string -> option dt) (n : nat) (mb : Mailbox)
    (r : ListResponse) (rest : list (Result ListResponse))
    (ids1 : list string) (id : string) (ids2 : list string) (msgs1 : list EmailMessage)
    (g' : list (Result EmailMessage))
    (Hlist : mb_list mb = Ok r :: rest) (Hsize : (0 < resultSizeEstimate r)%nat)
    (Hids : messages r = ids1 ++ id :: ids2) (Hlen : length msgs1 = length ids1)
    (Hnone : Forall (fun m => no_code pt m = true) msgs1) :
  (forall m v, mb_get mb = (Ok <$> msgs1) ++ Ok m :: g' ->
     _parse_code pt m = Ok (Some v) -> v <> "" ->
     fst (get_emails pt n mb) = Ok (Some v) /\ mb_get (snd (get_emails pt n mb)) = g') /\
  (forall m e, mb_get mb = (Ok <$> msgs1) ++ Ok m :: g' ->
     _parse_code pt m = Raise e ->
     fst (get_emails pt n mb) = Raise e /\ mb_get (snd (get_emails pt n mb)) = g') /\
  (mb_get mb = (Ok <$> msgs1) ++ repeat (Raise HttpError) 5 ++ g' ->
     fst (get_emails pt n mb) = Raise RetryError).
Proof.
  rewrite (get_emails_listed pt n mb r rest Hlist Hsize), Hids. split; [|split].
  - intros m v Hg Hm Hv.
    destruct (scan_messages_stop pt ids1 id ids2 msgs1 m g'
                {| mb_list := rest; mb_get := mb_get mb; mb_trace := EvListUnread :: mb_trace mb |})
      as [E1 [E2 _]]; auto.
    + unfold no_code. rewrite Hm. simpl. apply negb_false_iff, negb_true_iff.
      apply String.eqb_neq. exact Hv.
    + rewrite E1, Hm. auto.
  - intros m e Hg Hm.
    destruct (scan_messages_stop pt ids1 id ids2 msgs1 m g'
                {| mb_list := rest; mb_get := mb_get mb; mb_trace := EvListUnread :: mb_trace mb |})
      as [E1 [E2 _]]; auto.
    + unfold no_code. rewrite Hm. reflexivity.
    + rewrite E1, Hm. auto.
  - intros Hg. apply (scan_messages_unreadable pt ids1 id ids2 msgs1 g'); auto.
Qed.

Lemma get_emails_scan_order_witness :
  fst (get_emails never_parses 5 mb_two) = Ok (Some "739201").
Proof.
  refine (proj1 (proj1 (get_emails_scan_order never_parses 5 mb_two listing_two []
                          ["m1"] "m2" [] [msg_other] [] _ _ _ _ _) msg_code "739201" _ _ _)).
  all: try reflexivity.
  - simpl. lia.
  - constructor; [reflexivity|constructor].
  - discriminate.
Defined.

(** ** gmail.py: [get_emails] with no retries *)

(** With [num_retries = 0] ([stop_after_attempt(0)]) the listing still runs
    once: an API error or an empty inbox then fails [get_emails] with
    [RetryError] after exactly one listing call and no wait. *)
Theorem get_emails_zero_retries {dt} (pt : string -> option dt) (mb : Mailbox)
    (Hf : Forall list_fails (firstn 1 (mb_list mb))) :
  fst (get_emails pt 0 mb) = Raise RetryError /\
  list_calls (mb_trace (snd (get_emails pt 0 mb))) = S (list_calls (mb_trace mb)) /\
  jitter_waits (mb_trace (snd (get_emails pt 0 mb))) = jitter_waits (mb_trace mb).
Proof.
  assert (H : list_fails (match mb_list mb with x :: _ => x
                          | [] => Ok {| resultSizeEstimate := 0; messages := [] |} end)).
  { destruct (mb_list mb) as [|x l]; [reflexivity|]. inversion Hf. assumption. }
  destruct (list_attempt_fails mb H) as [e [He E]].
  unfold get_emails, tenacity_retry, mbind, St_bind. cbn [retry_loop].
  rewrite E, He. simpl. auto.
Qed.

Lemma get_emails_zero_retries_witness :
  Forall list_fails (firstn 1 (mb_list mb_empty)) /\
  fst (get_emails never_parses 0 mb_empty) = Raise RetryError.
Proof.
  split; [constructor|].
  exact (proj1 (get_emails_zero_retries never_parses mb_empty (List.Forall_nil _))).
Defined.

(** ** gmail.py: [gmail_get_email_code] *)

(** How [gmail_get_email_code] fails. An exception from loading the
    credentials, or from refreshing them, is raised as it is. Credentials
    that are invalid and cannot be refreshed (not expired, or no refresh
    token) raise the plain [Exception] "Credentials can't be authorized
    automatically", before any service is built. So [EmailLoginError]
    never reports an authorization failure. Once authorized, a service
    build failing with any exception (not only [HttpError]) gives
    [EmailLoginError]. A built service runs [get_emails] with 5 attempts. *)
Theorem gmail_get_email_code_failures {dt} (pt : string -> option dt)
    (ai : GmailCredentials) (g : Gmail.Google) :
  (forall e, Gmail.g_info g = Raise e ->
     fst (Gmail.gmail_get_email_code pt ai g) = Raise e) /\
  (forall c e, Gmail.g_info g = Ok c -> Gmail.cr_valid c = false ->
     Gmail.cr_expired c = true -> Py.truthy (Gmail.cr_refresh_token c) = true ->
     Gmail.g_refresh g = Raise e ->
     fst (Gmail.gmail_get_email_code pt ai g) = Raise e) /\
  (forall c, Gmail.g_info g = Ok c -> Gmail.cr_valid c = false ->
     (Gmail.cr_expired c && Py.truthy (Gmail.cr_refresh_token c)) = false ->
     Gmail.gmail_get_email_code pt ai g =
       (Raise (OtherError "Credentials can't be authorized automatically"),
        Gmail.g_with (Gmail.g_mailbox g) (Gmail.GvFromInfo :: Gmail.g_trace g) g)) /\
  (forall c, (Gmail.g_info g = Ok c /\ Gmail.cr_valid c = true) \/
             (exists c0, Gmail.g_info g = Ok c0 /\ Gmail.cr_valid c0 = false /\
                Gmail.cr_expired c0 = true /\ Py.truthy (Gmail.cr_refresh_token c0) = true /\
                Gmail.g_refresh g = Ok c) ->
     (forall e, Gmail.g_build g = Raise e ->
        fst (Gmail.gmail_get_email_code pt ai g) = Raise EmailLoginError) /\
     (Gmail.g_build g = Ok tt ->
        fst (Gmail.gmail_get_email_code pt ai g) = fst (get_emails pt 5 (Gmail.g_mailbox g)))).
Proof.
  destruct g as [info rf bd mb tr]; cbn [Gmail.g_info Gmail.g_refresh Gmail.g_build Gmail.g_mailbox Gmail.g_trace].
  unfold Gmail.gmail_get_email_code, Gmail.oauth2_login, Gmail.get_service, Gmail.on_mailbox,
    Gmail.from_authorized_user_info, Gmail.refresh, Gmail.build, mbind, St_bind.
  split; [|split; [|split]].
  - intros e ->. reflexivity.
  - intros c e -> Hv He Hr ->. cbn. rewrite Hv, He, Hr. reflexivity.
  - intros c -> Hv Hr. cbn. rewrite Hv. cbn.
    destruct (Gmail.cr_expired c); cbn in Hr |- *; rewrite ?Hr; reflexivity.
  - intros c Ha. split.
    + intros e ->. destruct Ha as [[-> Hv] | (c0 & -> & Hv & He & Hr & ->)]; cbn;
        rewrite ?Hv, ?He, ?Hr; reflexivity.
    + intros ->. destruct Ha as [[-> Hv] | (c0 & -> & Hv & He & Hr & ->)]; cbn -[get_emails];
        rewrite ?Hv, ?He, ?Hr; cbn -[get_emails]; destruct (get_emails pt 5 mb); reflexivity.
Qed.

(** ** gmail.py: the [GmailCredentials] constructor *)

Lemma obj_get_absent (l : list (string * json)) (k : string) :
  k ∉ l.*1 -> obj_get l k = None.
Proof.
  intros Hk. unfold obj_get, dict_of_items. rewrite dict_of_items_foldr.
  change ((list_to_map (reverse l) : gmap string json) !! k = None).
  apply not_elem_of_list_to_map_1. rewrite fmap_reverse, elem_of_reverse. exact Hk.
Qed.

Lemma forallb_false {A} (f : A -> bool) (l : list A) (x : A) :
  In x l -> f x = false -> forallb f l = false.
Proof.
  intros Hin Hf. destruct (forallb f l) eqn:E; [|reflexivity].
  rewrite (proj1 (forallb_forall f l) E x Hin) in Hf. discriminate.
Qed.

(** [GmailCredentials( **d)] on a stored JSON object: the four required
    fields alone give the defaults for the others ([SCOPES], Google's
    token URI, "googleapis.com", empty account and expiry); a missing
    required field, or a key that is not a field, makes it fail. *)
Theorem GmailCredentials_keyword_arguments :
  (forall t rt ci cs,
     GmailCredentials_of_json
       (JObj [("token", JStr t); ("refresh_token", JStr rt);
              ("client_id", JStr ci); ("client_secret", JStr cs)]) =
     Some {| token := t; refresh_token := rt; client_id := ci; client_secret := cs;
             scopes := SCOPES; token_uri := "https://oauth2.googleapis.com/token";
             universe_domain := "googleapis.com"; account := ""; expiry := "" |}) /\
  (forall l k, k ∈ ["token"; "refresh_token"; "client_id"; "client_secret"] ->
     k ∉ l.*1 -> GmailCredentials_of_json (JObj l) = None) /\
  (forall l k, k ∈ l.*1 -> k ∉ GmailCredentials_fields ->
     GmailCredentials_of_json (JObj l) = None).
Proof.
  split; [|split].
  - intros t rt ci cs. vm_compute. reflexivity.
  - intros l k Hk Hn. unfold GmailCredentials_of_json.
    destruct (forallb _ l); [|reflexivity].
    rewrite list_elem_of_In in Hk. simpl in Hk.
    destruct Hk as [<-|[<-|[<-|[<-|[]]]]]; rewrite (obj_get_absent l _ Hn);
      cbn -[obj_get]; repeat case_match; reflexivity.
  - intros l k Hk Hn. unfold GmailCredentials_of_json.
    apply list_elem_of_fmap in Hk as [[k' v] [-> Hin]].
    rewrite (forallb_false _ l (k', v)); [reflexivity| |].
    + apply list_elem_of_In. exact Hin.
    + apply bool_decide_eq_false. exact Hn.
Qed.

(** ** account.py: [Account.from_rs] drops non-integer stats *)



